(** * Service-module synthesis of the data-service generator

    A shallow embedding of
    [packages/amplication-data-service-generator/src/server/resource/service/create-service.ts]:
    the substitution mapping built by [createServiceModules], the two
    artifact pipelines [createServiceModule] and [createServiceBaseModule],
    and [createMutationDataMapping].  The tree utilities the module imports
    from [util/ast], [util/module], [util/field] and
    [util/nestjs-code-generation] are not part of the sources at hand; they
    are modelled from the specification and marked as such. *)

From Stdlib Require Import String Ascii List Bool Lia.
Import ListNotations.
Open Scope list_scope.
Open Scope string_scope.
Set Warnings "-register-all".

(** ** Syntax trees (the fragment of ast-types the templates use) *)

Inductive LogicalOp := LAnd | LOr.

Inductive Expr :=
| EId (name : string)
| EThis
| ESuper
| EStr (s : string)
| EMember (obj : Expr) (prop : string)
| ECall (callee : Expr) (args : list Expr)
| EAwait (arg : Expr)
| ELogical (op : LogicalOp) (left right : Expr)
| EArrow (params : list string) (body : Expr)
| EObject (props : list ObjProp)
with ObjProp :=
| PSpread (arg : Expr)
| PProp (key : string) (value : Expr).

Inductive Key := KId (name : string) | KStr (s : string).

Inductive Param :=
| PIdent (name : string) (ty : option string)
| PParamProp (accessibility : string) (readonly : bool)
             (name : string) (ty : option string).

Inductive Stmt := BExpr (e : Expr) | BReturn (e : Expr).

Inductive ClassMember :=
| CMethod (key : Key) (async : bool) (params : list Param) (body : list Stmt)
| CProperty (key : Key) (value : option Expr).

Record ImportDecl := { specifiers : list string; source : string }.

Inductive TopStmt :=
| SImport (i : ImportDecl)
| SClass (exported : bool) (id : string) (superClass : option string)
         (body : list ClassMember)
| STSDeclareClass (id : string)
| STSVarDeclare (id : string)
| STSInterface (id : string)
| SComment (text : string)
| STop (e : Expr).

Definition File := list TopStmt.

(** An output artifact: destination path and the finished tree.  Rendering
    ([print(file).code]) is an external, deterministic, pure function of the
    tree, so the tree stands for the rendered text. *)
Record Module := { path : string; code : File }.

(** ** Entities *)

Inductive EnumDataType :=
| SingleLineText | MultiLineText | Email | WholeNumber | DateTime
| Boolean | Id | Lookup | Password | Username | Roles.

Record EntityField := { fieldName : string; dataType : EnumDataType }.
Record Entity := { entityFields : list EntityField }.

(** Modelled from the spec: [isPasswordField] of [util/field] (a field
    carries the capability tag marking it sensitive). *)
Definition isPasswordField (f : EntityField) : bool :=
  match dataType f with Password => true | _ => false end.

(** ** Builders and constants of create-service.ts *)

Definition ARGS_ID := EId "args".
Definition DATA_ID := "data".
Definition PASSWORD_SERVICE_ID := "PasswordService".
Definition PASSWORD_SERVICE_MEMBER_ID := "passwordService".
Definition TRANSFORM_STRING_FIELD_UPDATE_INPUT_ID := "transformStringFieldUpdateInput".
Definition PASSWORD_FIELD_ASYNC_METHODS := ["create"; "update"].

(** [memberExpression`this.${PASSWORD_SERVICE_MEMBER_ID}.hash`] *)
Definition HASH_MEMBER_EXPRESSION :=
  EMember (EMember EThis PASSWORD_SERVICE_MEMBER_ID) "hash".

(** [args.data.<field>] *)
Definition argsDataField (field : string) : Expr :=
  EMember (EMember ARGS_ID DATA_ID) field.

(** The property built for a password field of the create mapping:
    [fieldId: await this.passwordService.hash(args.data.fieldId)]. *)
Definition createArgsOverride (field : EntityField) : ObjProp :=
  PProp (fieldName field)
        (EAwait (ECall HASH_MEMBER_EXPRESSION [argsDataField (fieldName field)])).

(** The property built for a password field of the update mapping:
    [fieldId: args.data.fieldId && await transformStringFieldUpdateInput(
       args.data.fieldId, (password) => this.passwordService.hash(password))]. *)
Definition updateArgsOverride (field : EntityField) : ObjProp :=
  PProp (fieldName field)
        (ELogical LAnd (argsDataField (fieldName field))
           (EAwait (ECall (EId TRANSFORM_STRING_FIELD_UPDATE_INPUT_ID)
                      [argsDataField (fieldName field);
                       EArrow ["password"]
                         (ECall HASH_MEMBER_EXPRESSION [EId "password"])]))).

Definition createMutationDataMapping (mappings : list ObjProp) : Expr :=
  match mappings with
  | [] => ARGS_ID
  | _ => EObject [PSpread ARGS_ID;
                  PProp DATA_ID (EObject (PSpread (EMember ARGS_ID DATA_ID) :: mappings))]
  end.

Definition createServiceId (entityType : string) : string := entityType ++ "Service".
Definition createServiceBaseId (entityType : string) : string :=
  entityType ++ "ServiceBase".

(** The substitution mapping: a JS object literal, as an association list. *)
Definition Mapping := list (string * Expr).

Fixpoint lookupMapping (m : Mapping) (x : string) : option Expr :=
  match m with
  | [] => None
  | (k, v) :: rest => if String.eqb k x then Some v else lookupMapping rest x
  end.

Definition createMapping (entityName entityType : string)
  (passwordFields : list EntityField) : Mapping :=
  [("SERVICE", EId (createServiceId entityType));
   ("SERVICE_BASE", EId (createServiceBaseId entityType));
   ("ENTITY", EId entityType);
   ("FIND_MANY_ARGS", EId ("FindMany" ++ entityType ++ "Args"));
   ("FIND_ONE_ARGS", EId ("FindOne" ++ entityType ++ "Args"));
   ("CREATE_ARGS", EId (entityType ++ "CreateArgs"));
   ("UPDATE_ARGS", EId (entityType ++ "UpdateArgs"));
   ("DELETE_ARGS", EId (entityType ++ "DeleteArgs"));
   ("DELEGATE", EId entityName);
   ("CREATE_ARGS_MAPPING",
     createMutationDataMapping (map createArgsOverride passwordFields));
   ("UPDATE_ARGS_MAPPING",
     createMutationDataMapping (map updateArgsOverride passwordFields))].

(** ** Template interpolation

    Modelled from the spec: [interpolate] of [util/ast].  Every identifier
    whose name is a key of the mapping is replaced by the mapped node.  In
    an expression position the whole replacement node is spliced in; in a
    name position (class id, member key, property name, type name, import
    specifier) the tree only holds a name, which is renamed when the
    replacement is an identifier.  Unmapped identifiers pass through. *)

Definition renameId (m : Mapping) (x : string) : string :=
  match lookupMapping m x with
  | Some (EId y) => y
  | _ => x
  end.

Fixpoint interpolateExpr (m : Mapping) (e : Expr) : Expr :=
  match e with
  | EId x => match lookupMapping m x with Some r => r | None => EId x end
  | EThis => EThis
  | ESuper => ESuper
  | EStr s => EStr s
  | EMember o p => EMember (interpolateExpr m o) (renameId m p)
  | ECall c args => ECall (interpolateExpr m c) (map (interpolateExpr m) args)
  | EAwait a => EAwait (interpolateExpr m a)
  | ELogical op l r => ELogical op (interpolateExpr m l) (interpolateExpr m r)
  | EArrow ps b => EArrow (map (renameId m) ps) (interpolateExpr m b)
  | EObject ps => EObject (map (interpolateProp m) ps)
  end
with interpolateProp (m : Mapping) (p : ObjProp) : ObjProp :=
  match p with
  | PSpread a => PSpread (interpolateExpr m a)
  | PProp k v => PProp (renameId m k) (interpolateExpr m v)
  end.

Definition interpolateKey (m : Mapping) (k : Key) : Key :=
  match k with KId x => KId (renameId m x) | KStr s => KStr s end.

Definition interpolateParam (m : Mapping) (p : Param) : Param :=
  match p with
  | PIdent x t => PIdent (renameId m x) (option_map (renameId m) t)
  | PParamProp a r x t => PParamProp a r (renameId m x) (option_map (renameId m) t)
  end.

Definition interpolateStmt (m : Mapping) (s : Stmt) : Stmt :=
  match s with
  | BExpr e => BExpr (interpolateExpr m e)
  | BReturn e => BReturn (interpolateExpr m e)
  end.

Definition interpolateMember (m : Mapping) (c : ClassMember) : ClassMember :=
  match c with
  | CMethod k a ps b =>
      CMethod (interpolateKey m k) a (map (interpolateParam m) ps)
              (map (interpolateStmt m) b)
  | CProperty k v => CProperty (interpolateKey m k) (option_map (interpolateExpr m) v)
  end.

Definition interpolateTop (m : Mapping) (t : TopStmt) : TopStmt :=
  match t with
  | SImport i => SImport {| specifiers := map (renameId m) (specifiers i);
                            source := source i |}
  | SClass ex x sc b =>
      SClass ex (renameId m x) (option_map (renameId m) sc)
             (map (interpolateMember m) b)
  | STSDeclareClass x => STSDeclareClass (renameId m x)
  | STSVarDeclare x => STSVarDeclare (renameId m x)
  | STSInterface x => STSInterface (renameId m x)
  | SComment c => SComment c
  | STop e => STop (interpolateExpr m e)
  end.

Definition interpolate (m : Mapping) (file : File) : File :=
  map (interpolateTop m) file.

(** ** Scaffold stripping

    Modelled from the spec: [removeTSClassDeclares], [removeTSIgnoreComments],
    [removeESLintComments], [removeTSVariableDeclares] and
    [removeTSInterfaceDeclares] of [util/ast]: each removes one kind of
    template-only construct and leaves every other statement as it is. *)

Definition isTSClassDeclare (t : TopStmt) : bool :=
  match t with STSDeclareClass _ => true | _ => false end.
Definition isTSIgnoreComment (t : TopStmt) : bool :=
  match t with SComment c => String.prefix "@ts-ignore" c | _ => false end.
Definition isESLintComment (t : TopStmt) : bool :=
  match t with SComment c => String.prefix "eslint" c | _ => false end.
Definition isTSVariableDeclare (t : TopStmt) : bool :=
  match t with STSVarDeclare _ => true | _ => false end.
Definition isTSInterfaceDeclare (t : TopStmt) : bool :=
  match t with STSInterface _ => true | _ => false end.

Definition removeWhere (p : TopStmt -> bool) (file : File) : File :=
  filter (fun t => negb (p t)) file.

Definition removeTSClassDeclares := removeWhere isTSClassDeclare.
Definition removeTSIgnoreComments := removeWhere isTSIgnoreComment.
Definition removeESLintComments := removeWhere isESLintComment.
Definition removeTSVariableDeclares := removeWhere isTSVariableDeclare.
Definition removeTSInterfaceDeclares := removeWhere isTSInterfaceDeclare.

(** ** Imports

    Modelled from the spec: [importNames] and [addImports] of [util/ast].
    An import is appended after the file's statements, keeping only the
    symbols the file does not import yet (de-duplication by imported
    symbol); an import with no new symbol is dropped. *)

Definition importNames (names : list string) (src : string) : ImportDecl :=
  {| specifiers := names; source := src |}.

Definition importedSymbols (file : File) : list string :=
  flat_map (fun t => match t with SImport i => specifiers i | _ => [] end) file.

Definition addImport (file : File) (i : ImportDecl) : File :=
  let fresh := filter (fun x => negb (existsb (String.eqb x) (importedSymbols file)))
                      (specifiers i) in
  match fresh with
  | [] => file
  | _ => (file ++ [SImport {| specifiers := fresh; source := source i |}])%list
  end.

Definition addImports (file : File) (imports : list ImportDecl) : File :=
  fold_left addImport imports file.

(** ** Class declarations and the structural mutators *)

(** Modelled from the spec: [getClassDeclarationById] of [util/ast] finds
    the first class declaration carrying the identifier.  The class it
    returns is a reference into the file: the mutators below update that
    class in place, which [updateClass] expresses. *)
Fixpoint findClass (file : File) (id : string) : option (list ClassMember) :=
  match file with
  | [] => None
  | SClass _ x _ b :: rest => if String.eqb x id then Some b else findClass rest id
  | _ :: rest => findClass rest id
  end.

Fixpoint updateClass (id : string) (f : list ClassMember -> list ClassMember)
  (file : File) : File :=
  match file with
  | [] => []
  | SClass ex x sc b :: rest =>
      if String.eqb x id then SClass ex x sc (f b) :: rest
      else SClass ex x sc b :: updateClass id f rest
  | t :: rest => t :: updateClass id f rest
  end.

Definition isConstructor (m : ClassMember) : bool :=
  match m with
  | CMethod (KId k) _ _ _ => String.eqb k "constructor"
  | _ => false
  end.

Definition hasConstructor (ms : list ClassMember) : bool := existsb isConstructor ms.

(** Modelled from the spec: [addInjectableDependency] of
    [util/nestjs-code-generation] adds a constructor-assigned member
    ([<accessibility> readonly <name>: <type>] parameter property) to the
    first constructor of the class; a class without a constructor lacks an
    expected member, which is fatal. *)
Fixpoint injectParam (p : Param) (ms : list ClassMember) : option (list ClassMember) :=
  match ms with
  | [] => None
  | m :: rest =>
      if isConstructor m then
        match m with
        | CMethod k a ps b => Some (CMethod k a ((ps ++ [p])%list) b :: rest)
        | _ => None
        end
      else option_map (cons m) (injectParam p rest)
  end.

(** Modelled from the spec: [addIdentifierToConstructorSuperCall] of
    [util/ast] appends the identifier to the arguments of the [super(...)]
    call of the constructors of the file, keeping the existing arguments. *)
Definition spliceSuperArg (id : string) (s : Stmt) : Stmt :=
  match s with
  | BExpr (ECall ESuper args) => BExpr (ECall ESuper ((args ++ [EId id])%list))
  | _ => s
  end.

Definition spliceMember (id : string) (m : ClassMember) : ClassMember :=
  match m with
  | CMethod k a ps b =>
      if isConstructor m then CMethod k a ps (map (spliceSuperArg id) b) else m
  | _ => m
  end.

Definition spliceTop (id : string) (t : TopStmt) : TopStmt :=
  match t with
  | SClass ex x sc b => SClass ex x sc (map (spliceMember id) b)
  | _ => t
  end.

Definition addIdentifierToConstructorSuperCall (file : File) (id : string) : File :=
  map (spliceTop id) file.

(** The body of the loop
    [for (const member of classDeclaration.body.body) if (ClassMethod &&
       Identifier key && PASSWORD_FIELD_ASYNC_METHODS.has(key.name))
       member.async = true]. *)
Definition markAsync (names : list string) (member : ClassMember) : ClassMember :=
  match member with
  | CMethod (KId n) a ps b =>
      if existsb (String.eqb n) names then CMethod (KId n) true ps b else member
  | _ => member
  end.

(** ** Module paths

    Modelled from the spec: [relativeImportPath] of [util/module].  Both
    paths are split at [/] and normalised (empty and ["."] segments dropped,
    [".."] resolved), the target's [.ts] extension is omitted, the common
    directory prefix is stripped, and the result is written with [".."]
    steps for the directories left, as a relative module specifier (a
    leading ["./"] unless it climbs with [".."]). *)

Fixpoint splitSlash (s : string) : list string :=
  match s with
  | EmptyString => [EmptyString]
  | String c rest =>
      let r := splitSlash rest in
      if Ascii.eqb c "/" then EmptyString :: r
      else match r with
           | h :: t => String c h :: t
           | [] => [String c EmptyString]
           end
  end.

Definition normStep (stack : list string) (seg : string) : list string :=
  if String.eqb seg EmptyString || String.eqb seg "." then stack
  else if String.eqb seg ".." then
    match stack with
    | h :: t => if String.eqb h ".." then ".." :: stack else t
    | [] => [".."]
    end
  else seg :: stack.

Definition normalizeSegments (segs : list string) : list string :=
  rev (fold_left normStep segs []).

Definition removeTsExt (s : string) : string :=
  match rev (list_ascii_of_string s) with
  | "s"%char :: "t"%char :: "."%char :: r => string_of_list_ascii (rev r)
  | _ => s
  end.

Definition mapLast (f : string -> string) (l : list string) : list string :=
  match rev l with
  | [] => []
  | x :: r => (rev r ++ [f x])%list
  end.

Fixpoint stripCommonPrefix (a b : list string) : list string * list string :=
  match a, b with
  | x :: a', y :: b' => if String.eqb x y then stripCommonPrefix a' b' else (a, b)
  | _, _ => (a, b)
  end.

Fixpoint joinSlash (segs : list string) : string :=
  match segs with
  | [] => EmptyString
  | [x] => x
  | x :: rest => x ++ "/" ++ joinSlash rest
  end.

Definition plainSegment (s : string) : bool :=
  forallb (fun c => negb (Ascii.eqb c "/")) (list_ascii_of_string s)
  && negb (String.eqb s EmptyString) && negb (String.eqb s ".") && negb (String.eqb s "..").

Definition relativeImportPath (from to : string) : string :=
  let fromDir := removelast (normalizeSegments (splitSlash from)) in
  let toSegs := mapLast removeTsExt (normalizeSegments (splitSlash to)) in
  let '(up, down) := stripCommonPrefix fromDir toSegs in
  let rel := (map (fun _ => "..") up ++ down)%list in
  match rel with
  | ".." :: _ => joinSlash rel
  | _ => "./" ++ joinSlash rel
  end.

(** ** The generator monad

    The pipelines thread the template tree through in-place mutations and
    may throw.  [Gen] is a state monad over the tree that also records the
    operations applied, in order (the record survives a failure), with an
    error outcome. *)

Inductive GenError :=
| TargetNotFound (id : string)
| ConstructorNotFound (id : string).

Inductive Result (A : Type) := Ok (a : A) | Err (e : GenError).
Arguments Ok {A} a.
Arguments Err {A} e.

Inductive Op :=
| OpInterpolate (mapping : Mapping)
| OpRemoveTSClassDeclares
| OpAddImports (imports : list ImportDecl)
| OpGetClassDeclarationById (id : string)
| OpAddInjectableDependency (name typeId accessibility : string)
| OpAddIdentifierToConstructorSuperCall (id : string)
| OpMarkAsync (names : list string)
| OpRemoveTSIgnoreComments
| OpRemoveESLintComments
| OpRemoveTSVariableDeclares
| OpRemoveTSInterfaceDeclares.

Definition GenState := (File * list Op)%type.
Definition Gen (A : Type) := GenState -> Result A * GenState.

Definition retG {A} (a : A) : Gen A := fun s => (Ok a, s).
Definition bindG {A B} (m : Gen A) (k : A -> Gen B) : Gen B :=
  fun s => match m s with
           | (Ok a, s') => k a s'
           | (Err e, s') => (Err e, s')
           end.

Notation "x <- m ;; k" := (bindG m (fun x => k))
  (at level 61, m at next level, right associativity).
Notation "m ;;; k" := (bindG m (fun _ => k))
  (at level 61, right associativity).

(** One in-place operation on the tree, recorded. *)
Definition modifyG (op : Op) (f : File -> File) : Gen unit :=
  fun '(file, tr) => (Ok tt, (f file, (tr ++ [op])%list)).

Definition getFile : Gen File := fun s => (Ok (fst s), s).

Definition interpolateG (mapping : Mapping) : Gen unit :=
  modifyG (OpInterpolate mapping) (interpolate mapping).
Definition addImportsG (imports : list ImportDecl) : Gen unit :=
  modifyG (OpAddImports imports) (fun f => addImports f imports).

(** A class reference is the identifier of the class found. *)
Definition getClassDeclarationById (id : string) : Gen string :=
  fun '(file, tr) =>
    let tr' := (tr ++ [OpGetClassDeclarationById id])%list in
    match findClass file id with
    | Some _ => (Ok id, (file, tr'))
    | None => (Err (TargetNotFound id), (file, tr'))
    end.

Definition addInjectableDependency (cls name typeId accessibility : string) : Gen unit :=
  fun '(file, tr) =>
    let tr' := (tr ++ [OpAddInjectableDependency name typeId accessibility])%list in
    let p := PParamProp accessibility true name (Some typeId) in
    match findClass file cls with
    | Some ms =>
        match injectParam p ms with
        | Some ms' => (Ok tt, (updateClass cls (fun _ => ms') file, tr'))
        | None => (Err (ConstructorNotFound cls), (file, tr'))
        end
    | None => (Err (TargetNotFound cls), (file, tr'))
    end.

Definition addIdentifierToConstructorSuperCallG (id : string) : Gen unit :=
  modifyG (OpAddIdentifierToConstructorSuperCall id)
          (fun f => addIdentifierToConstructorSuperCall f id).

Definition markAsyncMethods (cls : string) : Gen unit :=
  modifyG (OpMarkAsync PASSWORD_FIELD_ASYNC_METHODS)
          (updateClass cls (map (markAsync PASSWORD_FIELD_ASYNC_METHODS))).

(** The four trailing removals shared by both pipelines. *)
Definition removeScaffold : Gen unit :=
  modifyG OpRemoveTSIgnoreComments removeTSIgnoreComments ;;;
  modifyG OpRemoveESLintComments removeESLintComments ;;;
  modifyG OpRemoveTSVariableDeclares removeTSVariableDeclares ;;;
  modifyG OpRemoveTSInterfaceDeclares removeTSInterfaceDeclares.

(** ** The two pipelines and [createServiceModules]

    [SRC_DIRECTORY] (of [server/constants]) and the two parsed templates
    (the results of [readFile] on [service.template.ts] and
    [service.base.template.ts]) are the section's parameters. *)

Section Pipelines.

Variable SRC_DIRECTORY : string.
Variable serviceTemplate serviceBaseTemplate : File.

Definition PASSWORD_SERVICE_MODULE_PATH := SRC_DIRECTORY ++ "/auth/password.service.ts".
Definition PRISMA_UTIL_MODULE_PATH := SRC_DIRECTORY ++ "/prisma.util.ts".

Definition serviceModulePath (entityName : string) : string :=
  SRC_DIRECTORY ++ "/" ++ entityName ++ "/" ++ entityName ++ ".service.ts".
Definition serviceBaseModulePath (entityName : string) : string :=
  SRC_DIRECTORY ++ "/" ++ entityName ++ "/base/" ++ entityName ++ ".service.base.ts".

Definition createServiceModule (entityName : string) (mapping : Mapping)
  (passwordFields : list EntityField) (serviceId serviceBaseId : string)
  : Result Module * list Op :=
  let modulePath := serviceModulePath entityName in
  let moduleBasePath := serviceBaseModulePath entityName in
  let run :=
    interpolateG mapping ;;;
    modifyG OpRemoveTSClassDeclares removeTSClassDeclares ;;;
    addImportsG [importNames [serviceBaseId]
                   (relativeImportPath modulePath moduleBasePath)] ;;;
    (if negb (Nat.eqb (length passwordFields) 0) then
       classDeclaration <- getClassDeclarationById serviceId ;;
       addInjectableDependency classDeclaration PASSWORD_SERVICE_MEMBER_ID
         PASSWORD_SERVICE_ID "protected" ;;;
       addIdentifierToConstructorSuperCallG PASSWORD_SERVICE_MEMBER_ID ;;;
       markAsyncMethods classDeclaration ;;;
       addImportsG [importNames [PASSWORD_SERVICE_ID]
                      (relativeImportPath modulePath PASSWORD_SERVICE_MODULE_PATH)]
     else retG tt) ;;;
    removeScaffold ;;;
    file <- getFile ;;
    retG {| path := modulePath; code := file |} in
  let '(r, (_, tr)) := run (serviceTemplate, []) in (r, tr).

Definition createServiceBaseModule (entityName : string) (mapping : Mapping)
  (passwordFields : list EntityField) (serviceId serviceBaseId : string)
  : Result Module * list Op :=
  let moduleBasePath := serviceBaseModulePath entityName in
  let run :=
    interpolateG mapping ;;;
    modifyG OpRemoveTSClassDeclares removeTSClassDeclares ;;;
    (if negb (Nat.eqb (length passwordFields) 0) then
       classDeclaration <- getClassDeclarationById serviceBaseId ;;
       addInjectableDependency classDeclaration PASSWORD_SERVICE_MEMBER_ID
         PASSWORD_SERVICE_ID "protected" ;;;
       markAsyncMethods classDeclaration ;;;
       addImportsG [importNames [PASSWORD_SERVICE_ID]
                      (relativeImportPath moduleBasePath PASSWORD_SERVICE_MODULE_PATH)] ;;;
       addImportsG [importNames [TRANSFORM_STRING_FIELD_UPDATE_INPUT_ID]
                      (relativeImportPath moduleBasePath PRISMA_UTIL_MODULE_PATH)]
     else retG tt) ;;;
    removeScaffold ;;;
    file <- getFile ;;
    retG {| path := moduleBasePath; code := file |} in
  let '(r, (_, tr)) := run (serviceBaseTemplate, []) in (r, tr).

(** [createServiceModules], keeping each artifact's record of operations;
    the base artifact is only built once the concrete one succeeded, as
    with the sequential [await]s of the source. *)
Definition createServiceModulesRun (entityName entityType : string) (entity : Entity)
  : Result (list (Module * list Op)) :=
  let serviceId := createServiceId entityType in
  let serviceBaseId := createServiceBaseId entityType in
  let passwordFields := filter isPasswordField (entityFields entity) in
  let mapping := createMapping entityName entityType passwordFields in
  match createServiceModule entityName mapping passwordFields serviceId serviceBaseId with
  | (Err e, _) => Err e
  | (Ok m1, tr1) =>
      match createServiceBaseModule entityName mapping passwordFields serviceId
              serviceBaseId with
      | (Err e, _) => Err e
      | (Ok m2, tr2) => Ok [(m1, tr1); (m2, tr2)]
      end
  end.

Definition createServiceModules (entityName entityType : string) (entity : Entity)
  : Result (list Module) :=
  match createServiceModulesRun entityName entityType entity with
  | Ok runs => Ok (map fst runs)
  | Err e => Err e
  end.

End Pipelines.

(** ** Evaluating the generated expressions

    A small evaluator for the expression fragment, used to read off what a
    generated mapping does at run time.  It returns the value and the names
    of the functions called, in order; [await] yields the awaited value
    (a call's result stands for the resolved promise); reading a property
    of [undefined] or [null] is a [TypeError] ([None]). *)

Inductive Value :=
| VUndefined
| VNull
| VBool (b : bool)
| VStr (s : string)
| VObj (props : list (string * Value))
| VFun (name : string)
| VClosure (params : list string) (body : Expr)
| VCallResult (fname : string) (args : list Value).

Definition truthy (v : Value) : bool :=
  match v with
  | VUndefined | VNull => false
  | VBool b => b
  | VStr s => negb (String.eqb s EmptyString)
  | _ => true
  end.

Fixpoint lookupProp (props : list (string * Value)) (k : string) : Value :=
  match props with
  | [] => VUndefined
  | (k', v) :: rest => if String.eqb k' k then v else lookupProp rest k
  end.

(** Assigning a property keeps the position of an existing key. *)
Fixpoint setProp (props : list (string * Value)) (k : string) (v : Value)
  : list (string * Value) :=
  match props with
  | [] => [(k, v)]
  | (k', v') :: rest =>
      if String.eqb k' k then (k, v) :: rest else (k', v') :: setProp rest k v
  end.

Definition getProp (v : Value) (p : string) : option Value :=
  match v with
  | VUndefined | VNull => None
  | VObj props => Some (lookupProp props p)
  | _ => Some VUndefined
  end.

Definition spreadInto (acc : list (string * Value)) (v : Value) : list (string * Value) :=
  match v with
  | VObj props => fold_left (fun a '(k, x) => setProp a k x) props acc
  | _ => acc
  end.

Definition Env := list (string * Value).

Fixpoint evalExpr (env : Env) (thisV : Value) (e : Expr) : option (Value * list string) :=
  match e with
  | EId x =>
      match find (fun kv => String.eqb (fst kv) x) env with
      | Some (_, v) => Some (v, [])
      | None => None
      end
  | EThis => Some (thisV, [])
  | ESuper => None
  | EStr s => Some (VStr s, [])
  | EMember o p =>
      match evalExpr env thisV o with
      | Some (vo, t) => option_map (fun v => (v, t)) (getProp vo p)
      | None => None
      end
  | ECall c args =>
      match evalExpr env thisV c with
      | Some (VFun f, tc) =>
          let fix evalArgs (l : list Expr) : option (list Value * list string) :=
            match l with
            | [] => Some ([], [])
            | a :: rest =>
                match evalExpr env thisV a, evalArgs rest with
                | Some (va, ta), Some (vs, ts) => Some (va :: vs, (ta ++ ts)%list)
                | _, _ => None
                end
            end in
          match evalArgs args with
          | Some (vs, ta) => Some (VCallResult f vs, (tc ++ ta ++ [f])%list)
          | None => None
          end
      | _ => None
      end
  | EAwait a => evalExpr env thisV a
  | ELogical op l r =>
      match evalExpr env thisV l with
      | Some (vl, tl) =>
          let goRight := match op with LAnd => truthy vl | LOr => negb (truthy vl) end in
          if goRight then
            match evalExpr env thisV r with
            | Some (vr, tr) => Some (vr, (tl ++ tr)%list)
            | None => None
            end
          else Some (vl, tl)
      | None => None
      end
  | EArrow ps b => Some (VClosure ps b, [])
  | EObject ps =>
      let fix evalProps (l : list ObjProp) (acc : list (string * Value))
        : option (list (string * Value) * list string) :=
        match l with
        | [] => Some (acc, [])
        | PSpread a :: rest =>
            match evalExpr env thisV a with
            | Some (v, t) =>
                match evalProps rest (spreadInto acc v) with
                | Some (acc', t') => Some (acc', (t ++ t')%list)
                | None => None
                end
            | None => None
            end
        | PProp k a :: rest =>
            match evalExpr env thisV a with
            | Some (v, t) =>
                match evalProps rest (setProp acc k v) with
                | Some (acc', t') => Some (acc', (t ++ t')%list)
                | None => None
                end
            | None => None
            end
        end in
      option_map (fun '(props, t) => (VObj props, t)) (evalProps ps [])
  end.

(** ** Sample templates and entities

    Trees with the shape of [service.template.ts] and
    [service.base.template.ts], and the entities of the specification's
    scenarios, used to evaluate the pipelines on concrete inputs. *)

Definition prismaDelegateCall (method : string) (arg : Expr) : Stmt :=
  BReturn (ECall (EMember (EMember (EMember EThis "prisma") "DELEGATE") method) [arg]).

Definition sampleServiceTemplate : File :=
  [SImport (importNames ["Injectable"] "@nestjs/common");
   SImport (importNames ["PrismaService"] "nestjs-prisma");
   SComment "eslint-disable-next-line @typescript-eslint/no-unused-vars";
   STSDeclareClass "SERVICE_BASE";
   SClass true "SERVICE" (Some "SERVICE_BASE")
     [CMethod (KId "constructor") false
        [PParamProp "protected" true "prisma" (Some "PrismaService")]
        [BExpr (ECall ESuper [EId "prisma"])]]].

Definition sampleServiceBaseTemplate : File :=
  [SImport (importNames ["PrismaService"] "nestjs-prisma");
   SComment "@ts-ignore";
   STSInterface "CREATE_ARGS";
   STSVarDeclare "DELEGATE";
   STSDeclareClass "ENTITY";
   SClass true "SERVICE_BASE" None
     [CMethod (KId "constructor") false
        [PParamProp "protected" true "prisma" (Some "PrismaService")] [];
      CMethod (KId "findMany") false [PIdent "args" (Some "FIND_MANY_ARGS")]
        [prismaDelegateCall "findMany" (EId "args")];
      CMethod (KId "findOne") false [PIdent "args" (Some "FIND_ONE_ARGS")]
        [prismaDelegateCall "findOne" (EId "args")];
      CMethod (KId "create") false [PIdent "args" (Some "CREATE_ARGS")]
        [prismaDelegateCall "create" (EId "CREATE_ARGS_MAPPING")];
      CMethod (KId "update") false [PIdent "args" (Some "UPDATE_ARGS")]
        [prismaDelegateCall "update" (EId "UPDATE_ARGS_MAPPING")];
      CMethod (KId "delete") false [PIdent "args" (Some "DELETE_ARGS")]
        [prismaDelegateCall "delete" (EId "args")]]].

Definition customerEntity : Entity :=
  {| entityFields := [{| fieldName := "name"; dataType := SingleLineText |};
                      {| fieldName := "password"; dataType := Password |}] |}.

Definition tagEntity : Entity :=
  {| entityFields := [{| fieldName := "label"; dataType := SingleLineText |}] |}.

(** ** Kinds of recorded operations *)

Definition isGetClassOp (op : Op) : bool :=
  match op with OpGetClassDeclarationById _ => true | _ => false end.
Definition isInterpolateOp (op : Op) : bool :=
  match op with OpInterpolate _ => true | _ => false end.
Definition isInjectOp (op : Op) : bool :=
  match op with OpAddInjectableDependency _ _ _ => true | _ => false end.
Definition isMarkAsyncOp (op : Op) : bool :=
  match op with OpMarkAsync _ => true | _ => false end.
Definition isSuperSpliceOp (op : Op) : bool :=
  match op with OpAddIdentifierToConstructorSuperCall _ => true | _ => false end.

(** An import addition bringing in the symbol [x]. *)
Definition importsSymbol (x : string) (op : Op) : bool :=
  match op with
  | OpAddImports is => existsb (fun i => existsb (String.eqb x) (specifiers i)) is
  | _ => false
  end.

(** Scaffold stripping: all five removals, and the four trailing ones. *)
Definition isScaffoldStripOp (op : Op) : bool :=
  match op with
  | OpRemoveTSClassDeclares | OpRemoveTSIgnoreComments | OpRemoveESLintComments
  | OpRemoveTSVariableDeclares | OpRemoveTSInterfaceDeclares => true
  | _ => false
  end.
Definition isTrailingScaffoldStripOp (op : Op) : bool :=
  match op with
  | OpRemoveTSIgnoreComments | OpRemoveESLintComments
  | OpRemoveTSVariableDeclares | OpRemoveTSInterfaceDeclares => true
  | _ => false
  end.

(** Structural mutators: injection, super-call splice, async flips and
    import additions. *)
Definition isStructuralMutatorOp (op : Op) : bool :=
  match op with
  | OpAddInjectableDependency _ _ _ | OpAddIdentifierToConstructorSuperCall _
  | OpMarkAsync _ | OpAddImports _ => true
  | _ => false
  end.

(** Every [isStrip] operation of the record comes after every [isMut] one. *)
Fixpoint stripsAfterMutators (isStrip isMut : Op -> bool) (tr : list Op) : bool :=
  match tr with
  | [] => true
  | op :: rest =>
      (negb (isStrip op) || forallb (fun o => negb (isMut o)) rest)
      && stripsAfterMutators isStrip isMut rest
  end.

(** A template without the class declaration. *)
Definition classlessTemplate : File :=
  [SImport (importNames ["PrismaService"] "nestjs-prisma")].

(** ** Views used by the properties *)

(** The value of the last property with key [k] written in an object
    literal (spreads of unknown objects aside). *)
Fixpoint lastPropFor (k : string) (props : list ObjProp) : option Expr :=
  match props with
  | [] => None
  | PProp k' v :: rest =>
      match lastPropFor k rest with
      | Some e => Some e
      | None => if String.eqb k' k then Some v else None
      end
  | PSpread _ :: rest => lastPropFor k rest
  end.

(** The four trailing scaffold removals of both pipelines. *)
Definition stripScaffold (file : File) : File :=
  removeTSInterfaceDeclares (removeTSVariableDeclares
    (removeESLintComments (removeTSIgnoreComments file))).

(** A segment that is neither empty, [.] nor [..] is pushed unchanged. *)
Definition normalSegment (s : string) : bool :=
  negb (String.eqb s EmptyString) && negb (String.eqb s ".") && negb (String.eqb s "..").

(** Their recorded operations. *)
Definition scaffoldOps : list Op :=
  [OpRemoveTSIgnoreComments; OpRemoveESLintComments;
   OpRemoveTSVariableDeclares; OpRemoveTSInterfaceDeclares].

(** The injected constructor parameter
    [protected readonly passwordService: PasswordService]. *)
Definition passwordServiceParam : Param :=
  PParamProp "protected" true PASSWORD_SERVICE_MEMBER_ID (Some PASSWORD_SERVICE_ID).

(** What the mutators may change of a class member: its key and its
    async flag, for methods. *)
Definition asyncView (m : ClassMember) : option (Key * bool) :=
  match m with
  | CMethod k a _ _ => Some (k, a)
  | CProperty _ _ => None
  end.

(** A method whose key is an identifier in [names] becomes async; every
    other member keeps its flag. *)
Definition asyncMarked (names : list string) (v : option (Key * bool))
  : option (Key * bool) :=
  match v with
  | Some (KId n, a) => Some (KId n, a || existsb (String.eqb n) names)
  | _ => v
  end.

(** The password field of the [Customer] entity, and an environment
    where [args.data] carries no value for it. *)
Definition customerPassword : EntityField :=
  {| fieldName := "password"; dataType := Password |}.

Definition emptyDataEnv : Env := [("args", VObj [("data", VObj [])])].

(** The evaluation of an object literal's properties, as done by the
    local [evalProps] of [evalExpr], named at top level. *)
Fixpoint evalProps (env : Env) (thisV : Value) (l : list ObjProp)
  (acc : list (string * Value)) : option (list (string * Value) * list string) :=
  match l with
  | [] => Some (acc, [])
  | PSpread a :: rest =>
      match evalExpr env thisV a with
      | Some (v, t) =>
          match evalProps env thisV rest (spreadInto acc v) with
          | Some (acc', t') => Some (acc', (t ++ t')%list)
          | None => None
          end
      | None => None
      end
  | PProp k a :: rest =>
      match evalExpr env thisV a with
      | Some (v, t) =>
          match evalProps env thisV rest (setProp acc k v) with
          | Some (acc', t') => Some (acc', (t ++ t')%list)
          | None => None
          end
      | None => None
      end
  end.

(** The function that the update mapping hands to the transform helper:
    [(password) => this.passwordService.hash(password)]. *)
Definition passwordHasher : Value :=
  VClosure ["password"] (ECall HASH_MEMBER_EXPRESSION [EId "password"]).

(** A receiver with the password service, and an environment with the
    arguments of a create or update call and the transform helper. *)
Definition sampleThis : Value :=
  VObj [("passwordService", VObj [("hash", VFun "hash")])].

Definition sampleArgsEnv : Env :=
  [("args", VObj [("data", VObj [("name", VStr "Ann"); ("password", VStr "secret")]);
                  ("select", VStr "all")]);
   ("transformStringFieldUpdateInput", VFun "transformStringFieldUpdateInput")].

(** * Properties *)

(** ** Helper lemmas *)

Lemma lastPropFor_createArgsOverride_gen (pw : list EntityField) (k : string) :
  lastPropFor k (map createArgsOverride pw) =
    if existsb (fun g => String.eqb (fieldName g) k) pw
    then Some (EAwait (ECall HASH_MEMBER_EXPRESSION [argsDataField k])) else None.
Proof.
  induction pw as [|g pw IH]; simpl; [reflexivity|].
  rewrite IH.
  destruct (existsb (fun g => String.eqb (fieldName g) k) pw); simpl.
  - destruct (String.eqb (fieldName g) k); reflexivity.
  - destruct (String.eqb_spec (fieldName g) k) as [->|]; reflexivity.
Qed.

Lemma lastPropFor_createArgsOverride (pw : list EntityField) (f : EntityField) :
  In f pw ->
  lastPropFor (fieldName f) (map createArgsOverride pw) =
    Some (EAwait (ECall HASH_MEMBER_EXPRESSION [argsDataField (fieldName f)])).
Proof.
  intros Hin. rewrite lastPropFor_createArgsOverride_gen.
  replace (existsb _ pw) with true; [reflexivity|].
  symmetry. apply existsb_exists. exists f. split; [assumption|apply String.eqb_refl].
Qed.

(** Path algebra for [relativeImportPath]. *)

Lemma splitSlash_not_nil (s : string) : splitSlash s <> [].
Proof.
  induction s as [|c s IH]; simpl; [discriminate|].
  destruct (Ascii.eqb c "/"); [discriminate|].
  destruct (splitSlash s); discriminate.
Qed.

Lemma splitSlash_app_slash (a b : string) :
  splitSlash (a ++ "/" ++ b) = (splitSlash a ++ splitSlash b)%list.
Proof.
  induction a as [|c a IH]; [reflexivity|].
  simpl in *. rewrite IH.
  destruct (Ascii.eqb c "/"); [reflexivity|].
  destruct (splitSlash a) eqn:E; [exfalso; exact (splitSlash_not_nil a E)|].
  reflexivity.
Qed.

Lemma list_ascii_of_string_app (a b : string) :
  list_ascii_of_string (a ++ b) = (list_ascii_of_string a ++ list_ascii_of_string b)%list.
Proof. induction a as [|c a IH]; simpl; [reflexivity|]. rewrite IH. reflexivity. Qed.

Lemma splitSlash_noSlash (s : string) :
  forallb (fun c => negb (Ascii.eqb c "/")) (list_ascii_of_string s) = true ->
  splitSlash s = [s].
Proof.
  induction s as [|c s IH]; simpl; [reflexivity|].
  intros H. apply andb_prop in H as [Hc Hs].
  destruct (Ascii.eqb c "/"); [discriminate|].
  rewrite IH by assumption. reflexivity.
Qed.

Lemma string_append_assoc (a b c : string) : (a ++ b) ++ c = a ++ (b ++ c).
Proof. induction a as [|x a IH]; simpl; [reflexivity|]. rewrite IH. reflexivity. Qed.

Lemma string_length_app (a b : string) :
  String.length (a ++ b) = String.length a + String.length b.
Proof. induction a as [|x a IH]; simpl; [reflexivity|]. rewrite IH. reflexivity. Qed.

Lemma removeTsExt_app (x : string) : removeTsExt (x ++ ".ts") = x.
Proof.
  unfold removeTsExt. rewrite list_ascii_of_string_app, rev_app_distr. simpl.
  rewrite rev_involutive. apply string_of_list_ascii_of_string.
Qed.

Lemma fold_normStep_normal (xs : list string) (acc : list string) :
  forallb normalSegment xs = true ->
  fold_left normStep xs acc = (rev xs ++ acc)%list.
Proof.
  revert acc. induction xs as [|x xs IH]; intros acc H; simpl; [reflexivity|].
  apply andb_prop in H as [Hx Hxs]. rewrite IH by assumption.
  unfold normalSegment in Hx. unfold normStep.
  destruct (String.eqb x EmptyString), (String.eqb x "."), (String.eqb x ".."); try discriminate.
  simpl. rewrite <- app_assoc. reflexivity.
Qed.

Lemma normalizeSegments_app_normal (l xs : list string) :
  forallb normalSegment xs = true ->
  normalizeSegments (l ++ xs) = (normalizeSegments l ++ xs)%list.
Proof.
  intros H. unfold normalizeSegments. rewrite fold_left_app.
  rewrite fold_normStep_normal by assumption.
  rewrite rev_app_distr, rev_involutive. reflexivity.
Qed.

Lemma mapLast_snoc (f : string -> string) (l : list string) (x : string) :
  mapLast f (l ++ [x]) = (l ++ [f x])%list.
Proof.
  unfold mapLast. rewrite rev_app_distr. simpl. rewrite rev_involutive. reflexivity.
Qed.

Lemma stripCommonPrefix_app (l a b : list string) :
  stripCommonPrefix (l ++ a) (l ++ b) = stripCommonPrefix a b.
Proof.
  induction l as [|x l IH]; simpl; [reflexivity|]. rewrite String.eqb_refl. exact IH.
Qed.

Lemma normalSegment_long (s : string) :
  2 < String.length s -> normalSegment s = true.
Proof.
  intros H. unfold normalSegment.
  destruct (String.eqb_spec s EmptyString), (String.eqb_spec s "."), (String.eqb_spec s "..");
    subst; simpl in *; try lia; reflexivity.
Qed.

Lemma plainSegment_split (s : string) :
  plainSegment s = true ->
  forallb (fun c => negb (Ascii.eqb c "/")) (list_ascii_of_string s) = true /\
  normalSegment s = true.
Proof.
  unfold plainSegment, normalSegment. intros H.
  apply andb_prop in H as [H H3]. apply andb_prop in H as [H H2].
  apply andb_prop in H as [H H1].
  split; [exact H|]. rewrite H1, H2, H3. reflexivity.
Qed.

Lemma noSlash_app (a b : string) :
  forallb (fun c => negb (Ascii.eqb c "/")) (list_ascii_of_string a) = true ->
  forallb (fun c => negb (Ascii.eqb c "/")) (list_ascii_of_string b) = true ->
  forallb (fun c => negb (Ascii.eqb c "/")) (list_ascii_of_string (a ++ b)) = true.
Proof.
  intros Ha Hb. rewrite list_ascii_of_string_app, forallb_app, Ha, Hb. reflexivity.
Qed.

(** The import path from the concrete service to the base service. *)
Lemma relativeImportPath_service_base (SRC_DIRECTORY entityName : string) :
  plainSegment entityName = true ->
  relativeImportPath (serviceModulePath SRC_DIRECTORY entityName)
                     (serviceBaseModulePath SRC_DIRECTORY entityName) =
  "./base/" ++ entityName ++ ".service.base".
Proof.
  intros Hplain. apply plainSegment_split in Hplain as [Hns Hnorm].
  set (e := entityName) in *.
  assert (Hs1 : splitSlash (serviceModulePath SRC_DIRECTORY e) =
                app (splitSlash SRC_DIRECTORY) [e; e ++ ".service.ts"]).
  { unfold serviceModulePath. rewrite !splitSlash_app_slash.
    rewrite (splitSlash_noSlash e Hns).
    rewrite (splitSlash_noSlash (e ++ ".service.ts")) by (apply noSlash_app; auto).
    reflexivity. }
  assert (Hs2 : splitSlash (serviceBaseModulePath SRC_DIRECTORY e) =
                app (splitSlash SRC_DIRECTORY) [e; "base"; e ++ ".service.base.ts"]).
  { unfold serviceBaseModulePath.
    change ("/base/" ++ e ++ ".service.base.ts")
      with ("/" ++ "base" ++ "/" ++ e ++ ".service.base.ts").
    rewrite !splitSlash_app_slash.
    rewrite (splitSlash_noSlash e Hns).
    rewrite (splitSlash_noSlash (e ++ ".service.base.ts")) by (apply noSlash_app; auto).
    reflexivity. }
  assert (Hl : forall suf, String.length (e ++ suf) >= String.length suf).
  { intros suf. rewrite string_length_app. lia. }
  unfold relativeImportPath. rewrite Hs1, Hs2.
  rewrite !normalizeSegments_app_normal.
  2:{ simpl. rewrite Hnorm. rewrite normalSegment_long
        by (specialize (Hl ".service.base.ts"); simpl in Hl; lia). reflexivity. }
  2:{ simpl. rewrite Hnorm. rewrite normalSegment_long
        by (specialize (Hl ".service.ts"); simpl in Hl; lia). reflexivity. }
  rewrite removelast_app by discriminate. simpl removelast.
  change [e; "base"; e ++ ".service.base.ts"] with (app [e; "base"] [e ++ ".service.base.ts"]).
  rewrite app_assoc, mapLast_snoc.
  replace (e ++ ".service.base.ts") with ((e ++ ".service.base") ++ ".ts")
    by (rewrite string_append_assoc; reflexivity).
  rewrite removeTsExt_app, <- app_assoc.
  rewrite stripCommonPrefix_app. simpl. rewrite String.eqb_refl. reflexivity.
Qed.

(** Flat forms of the two pipelines: the recorded operations and the
    outcome, by the branch taken. *)

Lemma createServiceModule_flat SRC_DIRECTORY serviceTemplate entityName mapping
  passwordFields serviceId serviceBaseId :
  let modulePath := serviceModulePath SRC_DIRECTORY entityName in
  let baseImport := importNames [serviceBaseId]
        (relativeImportPath modulePath (serviceBaseModulePath SRC_DIRECTORY entityName)) in
  let pwImport := importNames [PASSWORD_SERVICE_ID]
        (relativeImportPath modulePath (PASSWORD_SERVICE_MODULE_PATH SRC_DIRECTORY)) in
  let f0 := addImports (removeTSClassDeclares (interpolate mapping serviceTemplate))
              [baseImport] in
  let pre := [OpInterpolate mapping; OpRemoveTSClassDeclares; OpAddImports [baseImport]] in
  createServiceModule SRC_DIRECTORY serviceTemplate entityName mapping passwordFields
    serviceId serviceBaseId =
  if Nat.eqb (length passwordFields) 0 then
    (Ok {| path := modulePath; code := stripScaffold f0 |}, (pre ++ scaffoldOps)%list)
  else
    match findClass f0 serviceId with
    | None => (Err (TargetNotFound serviceId), (pre ++ [OpGetClassDeclarationById serviceId])%list)
    | Some ms =>
        match injectParam passwordServiceParam ms with
        | None =>
            (Err (ConstructorNotFound serviceId),
             (pre ++ [OpGetClassDeclarationById serviceId;
                      OpAddInjectableDependency PASSWORD_SERVICE_MEMBER_ID
                        PASSWORD_SERVICE_ID "protected"])%list)
        | Some ms' =>
            (Ok {| path := modulePath;
                   code := stripScaffold
                     (addImports
                        (updateClass serviceId (map (markAsync PASSWORD_FIELD_ASYNC_METHODS))
                           (addIdentifierToConstructorSuperCall
                              (updateClass serviceId (fun _ => ms') f0)
                              PASSWORD_SERVICE_MEMBER_ID))
                        [pwImport]) |},
             (pre ++ [OpGetClassDeclarationById serviceId;
                      OpAddInjectableDependency PASSWORD_SERVICE_MEMBER_ID
                        PASSWORD_SERVICE_ID "protected";
                      OpAddIdentifierToConstructorSuperCall PASSWORD_SERVICE_MEMBER_ID;
                      OpMarkAsync PASSWORD_FIELD_ASYNC_METHODS;
                      OpAddImports [pwImport]] ++ scaffoldOps)%list)
        end
    end.
Proof.
  cbv zeta. unfold createServiceModule.
  destruct (Nat.eqb (length passwordFields) 0); [reflexivity|].
  unfold getClassDeclarationById, addInjectableDependency,
    addIdentifierToConstructorSuperCallG, markAsyncMethods, addImportsG,
    removeScaffold, modifyG, getFile, retG, interpolateG.
  unfold bindG.
  cbn -[findClass injectParam updateClass addImports addIdentifierToConstructorSuperCall
        relativeImportPath interpolate removeTSClassDeclares stripScaffold
        removeTSIgnoreComments removeESLintComments removeTSVariableDeclares
        removeTSInterfaceDeclares].
  destruct (findClass _ serviceId) as [ms|] eqn:E; [|reflexivity].
  cbn -[findClass injectParam updateClass addImports addIdentifierToConstructorSuperCall
        relativeImportPath interpolate removeTSClassDeclares stripScaffold
        removeTSIgnoreComments removeESLintComments removeTSVariableDeclares
        removeTSInterfaceDeclares].
  rewrite E.
  unfold passwordServiceParam. destruct (injectParam _ ms); reflexivity.
Qed.

Lemma createServiceBaseModule_flat SRC_DIRECTORY serviceBaseTemplate entityName mapping
  passwordFields serviceId serviceBaseId :
  let moduleBasePath := serviceBaseModulePath SRC_DIRECTORY entityName in
  let pwImport := importNames [PASSWORD_SERVICE_ID]
        (relativeImportPath moduleBasePath (PASSWORD_SERVICE_MODULE_PATH SRC_DIRECTORY)) in
  let utilImport := importNames [TRANSFORM_STRING_FIELD_UPDATE_INPUT_ID]
        (relativeImportPath moduleBasePath (PRISMA_UTIL_MODULE_PATH SRC_DIRECTORY)) in
  let f0 := removeTSClassDeclares (interpolate mapping serviceBaseTemplate) in
  let pre := [OpInterpolate mapping; OpRemoveTSClassDeclares] in
  createServiceBaseModule SRC_DIRECTORY serviceBaseTemplate entityName mapping
    passwordFields serviceId serviceBaseId =
  if Nat.eqb (length passwordFields) 0 then
    (Ok {| path := moduleBasePath; code := stripScaffold f0 |}, (pre ++ scaffoldOps)%list)
  else
    match findClass f0 serviceBaseId with
    | None => (Err (TargetNotFound serviceBaseId),
               (pre ++ [OpGetClassDeclarationById serviceBaseId])%list)
    | Some ms =>
        match injectParam passwordServiceParam ms with
        | None =>
            (Err (ConstructorNotFound serviceBaseId),
             (pre ++ [OpGetClassDeclarationById serviceBaseId;
                      OpAddInjectableDependency PASSWORD_SERVICE_MEMBER_ID
                        PASSWORD_SERVICE_ID "protected"])%list)
        | Some ms' =>
            (Ok {| path := moduleBasePath;
                   code := stripScaffold
                     (addImports
                        (addImports
                           (updateClass serviceBaseId
                              (map (markAsync PASSWORD_FIELD_ASYNC_METHODS))
                              (updateClass serviceBaseId (fun _ => ms') f0))
                           [pwImport])
                        [utilImport]) |},
             (pre ++ [OpGetClassDeclarationById serviceBaseId;
                      OpAddInjectableDependency PASSWORD_SERVICE_MEMBER_ID
                        PASSWORD_SERVICE_ID "protected";
                      OpMarkAsync PASSWORD_FIELD_ASYNC_METHODS;
                      OpAddImports [pwImport];
                      OpAddImports [utilImport]] ++ scaffoldOps)%list)
        end
    end.
Proof.
  cbv zeta. unfold createServiceBaseModule.
  destruct (Nat.eqb (length passwordFields) 0); [reflexivity|].
  unfold getClassDeclarationById, addInjectableDependency,
    addIdentifierToConstructorSuperCallG, markAsyncMethods, addImportsG,
    removeScaffold, modifyG, getFile, retG, interpolateG.
  unfold bindG.
  cbn -[findClass injectParam updateClass addImports addIdentifierToConstructorSuperCall
        relativeImportPath interpolate removeTSClassDeclares stripScaffold
        removeTSIgnoreComments removeESLintComments removeTSVariableDeclares
        removeTSInterfaceDeclares].
  destruct (findClass _ serviceBaseId) as [ms|] eqn:E; [|reflexivity].
  cbn -[findClass injectParam updateClass addImports addIdentifierToConstructorSuperCall
        relativeImportPath interpolate removeTSClassDeclares stripScaffold
        removeTSIgnoreComments removeESLintComments removeTSVariableDeclares
        removeTSInterfaceDeclares].
  rewrite E.
  unfold passwordServiceParam. destruct (injectParam _ ms); reflexivity.
Qed.

Lemma createServiceModulesRun_inv SRC_DIRECTORY serviceTemplate serviceBaseTemplate
  entityName entityType entity runs :
  createServiceModulesRun SRC_DIRECTORY serviceTemplate serviceBaseTemplate
    entityName entityType entity = Ok runs ->
  let pw := filter isPasswordField (entityFields entity) in
  let mapping := createMapping entityName entityType pw in
  exists m1 tr1 m2 tr2,
    runs = [(m1, tr1); (m2, tr2)] /\
    createServiceModule SRC_DIRECTORY serviceTemplate entityName mapping pw
      (createServiceId entityType) (createServiceBaseId entityType) = (Ok m1, tr1) /\
    createServiceBaseModule SRC_DIRECTORY serviceBaseTemplate entityName mapping pw
      (createServiceId entityType) (createServiceBaseId entityType) = (Ok m2, tr2).
Proof.
  intros H. cbv zeta. unfold createServiceModulesRun in H.
  destruct (createServiceModule _ _ _ _ _ _ _) as [[m1|e] tr1] eqn:E1 in H;
    [|discriminate].
  destruct (createServiceBaseModule _ _ _ _ _ _ _) as [[m2|e] tr2] eqn:E2 in H;
    [|discriminate].
  inversion H; subst. exists m1, tr1, m2, tr2. auto.
Qed.

Lemma createServiceModule_ok_shape SRC_DIRECTORY serviceTemplate entityName mapping
  passwordFields serviceId serviceBaseId m tr :
  createServiceModule SRC_DIRECTORY serviceTemplate entityName mapping passwordFields
    serviceId serviceBaseId = (Ok m, tr) ->
  path m = serviceModulePath SRC_DIRECTORY entityName /\
  exists rest,
    tr = (OpInterpolate mapping :: OpRemoveTSClassDeclares ::
          OpAddImports [importNames [serviceBaseId]
            (relativeImportPath (serviceModulePath SRC_DIRECTORY entityName)
               (serviceBaseModulePath SRC_DIRECTORY entityName))] :: rest).
Proof.
  rewrite createServiceModule_flat. intros H.
  destruct (Nat.eqb (length passwordFields) 0).
  - inversion H; subst. split; [reflexivity|]. eexists. reflexivity.
  - destruct (findClass _ serviceId); [|discriminate].
    destruct (injectParam _ _); [|discriminate].
    inversion H; subst. split; [reflexivity|]. eexists. reflexivity.
Qed.

Lemma createServiceBaseModule_ok_path SRC_DIRECTORY serviceBaseTemplate entityName
  mapping passwordFields serviceId serviceBaseId m tr :
  createServiceBaseModule SRC_DIRECTORY serviceBaseTemplate entityName mapping
    passwordFields serviceId serviceBaseId = (Ok m, tr) ->
  path m = serviceBaseModulePath SRC_DIRECTORY entityName.
Proof.
  rewrite createServiceBaseModule_flat. intros H.
  destruct (Nat.eqb (length passwordFields) 0).
  - inversion H; subst. reflexivity.
  - destruct (findClass _ serviceBaseId); [|discriminate].
    destruct (injectParam _ _); [|discriminate].
    inversion H; subst. reflexivity.
Qed.

(** Class lookup through the operations of the pipelines. *)

Lemma findClass_removeWhere (p : TopStmt -> bool) (file : File) (id : string) :
  (forall ex x sc b, p (SClass ex x sc b) = false) ->
  findClass (removeWhere p file) id = findClass file id.
Proof.
  intros Hp. induction file as [|t file IH]; [reflexivity|].
  unfold removeWhere in *. simpl.
  destruct t; simpl; try (destruct (p _); simpl; exact IH).
  rewrite Hp. simpl. destruct (String.eqb id0 id); [reflexivity|exact IH].
Qed.

Lemma findClass_app_import (file : File) (i : ImportDecl) (id : string) :
  findClass (file ++ [SImport i])%list id = findClass file id.
Proof.
  induction file as [|t file IH]; [reflexivity|].
  destruct t; simpl; try exact IH. destruct (String.eqb id0 id); [reflexivity|exact IH].
Qed.

Lemma findClass_addImports (file : File) (imports : list ImportDecl) (id : string) :
  findClass (addImports file imports) id = findClass file id.
Proof.
  unfold addImports. revert file.
  induction imports as [|i imports IH]; intros file; [reflexivity|].
  simpl. rewrite IH. unfold addImport.
  destruct (filter _ _); [reflexivity|]. apply findClass_app_import.
Qed.

Lemma findClass_addImport (file : File) (i : ImportDecl) (id : string) :
  findClass (addImport file i) id = findClass file id.
Proof. apply (findClass_addImports file [i]). Qed.

Lemma findClass_stripScaffold (file : File) (id : string) :
  findClass (stripScaffold file) id = findClass file id.
Proof.
  unfold stripScaffold, removeTSInterfaceDeclares, removeTSVariableDeclares,
    removeESLintComments, removeTSIgnoreComments.
  rewrite !findClass_removeWhere by reflexivity. reflexivity.
Qed.

Lemma findClass_removeTSClassDeclares (file : File) (id : string) :
  findClass (removeTSClassDeclares file) id = findClass file id.
Proof. apply findClass_removeWhere. reflexivity. Qed.

Lemma findClass_updateClass (file : File) (id : string) f :
  findClass (updateClass id f file) id = option_map f (findClass file id).
Proof.
  induction file as [|t file IH]; [reflexivity|].
  destruct t; simpl; try exact IH.
  destruct (String.eqb_spec id0 id); simpl.
  - subst. rewrite String.eqb_refl. reflexivity.
  - apply String.eqb_neq in n. rewrite n. exact IH.
Qed.

Lemma findClass_superCall (file : File) (id x : string) :
  findClass (addIdentifierToConstructorSuperCall file x) id =
  option_map (map (spliceMember x)) (findClass file id).
Proof.
  induction file as [|t file IH]; [reflexivity|].
  destruct t; simpl; try exact IH.
  destruct (String.eqb id0 id); [reflexivity|exact IH].
Qed.

Lemma asyncView_markAsync (names : list string) (m : ClassMember) :
  asyncView (markAsync names m) = asyncMarked names (asyncView m).
Proof.
  destruct m as [[n|s] a ps b|k v]; simpl; try reflexivity.
  destruct (existsb (String.eqb n) names); simpl.
  - rewrite orb_true_r. reflexivity.
  - rewrite orb_false_r. reflexivity.
Qed.

Lemma asyncView_spliceMember (x : string) (m : ClassMember) :
  asyncView (spliceMember x m) = asyncView m.
Proof.
  destruct m as [k a ps b|k v]; [|reflexivity].
  unfold spliceMember. destruct (isConstructor (CMethod k a ps b)); reflexivity.
Qed.

Lemma injectParam_asyncView (p : Param) (ms ms' : list ClassMember) :
  injectParam p ms = Some ms' -> map asyncView ms' = map asyncView ms.
Proof.
  revert ms'. induction ms as [|m ms IH]; intros ms' H; simpl in H; [discriminate|].
  destruct (isConstructor m).
  - destruct m; [|discriminate]. inversion H; subst. reflexivity.
  - destruct (injectParam p ms) as [r|]; [|discriminate].
    inversion H; subst. simpl. rewrite (IH r eq_refl). reflexivity.
Qed.

Lemma injectParam_hasConstructor (p : Param) (ms : list ClassMember) :
  hasConstructor ms = true -> exists ms', injectParam p ms = Some ms'.
Proof.
  unfold hasConstructor. induction ms as [|m ms IH]; simpl; [discriminate|].
  destruct (isConstructor m) eqn:E; simpl; intros H.
  - destruct m; [eexists; reflexivity|discriminate].
  - destruct (IH H) as [ms' ->]. eexists. reflexivity.
Qed.

Lemma async_view_after_mutators (p : Param) (x : string) (ms ms' : list ClassMember) :
  injectParam p ms = Some ms' ->
  map asyncView (map (markAsync PASSWORD_FIELD_ASYNC_METHODS) (map (spliceMember x) ms')) =
  map (asyncMarked PASSWORD_FIELD_ASYNC_METHODS) (map asyncView ms).
Proof.
  intros H. rewrite <- (injectParam_asyncView p ms ms' H).
  rewrite !map_map. apply map_ext. intros m.
  rewrite asyncView_markAsync, asyncView_spliceMember. reflexivity.
Qed.

(** Pushes a class lookup through the operations of the pipelines. *)
Ltac findClass_through :=
  repeat first
    [ rewrite findClass_stripScaffold
    | rewrite findClass_addImports
    | rewrite findClass_addImport
    | rewrite findClass_removeTSClassDeclares
    | rewrite findClass_superCall
    | rewrite findClass_updateClass ].

Ltac findClass_through_in H :=
  repeat first
    [ rewrite findClass_stripScaffold in H
    | rewrite findClass_addImports in H
    | rewrite findClass_addImport in H
    | rewrite findClass_removeTSClassDeclares in H
    | rewrite findClass_superCall in H
    | rewrite findClass_updateClass in H ].

Lemma length_nonzero {A} (l : list A) : l <> [] -> Nat.eqb (length l) 0 = false.
Proof. destruct l; [contradiction|reflexivity]. Qed.

Lemma createServiceModule_async SRC_DIRECTORY serviceTemplate entityName mapping
  passwordFields serviceId serviceBaseId m tr :
  passwordFields <> [] ->
  createServiceModule SRC_DIRECTORY serviceTemplate entityName mapping passwordFields
    serviceId serviceBaseId = (Ok m, tr) ->
  exists msIn msOut,
    findClass (interpolate mapping serviceTemplate) serviceId = Some msIn /\
    findClass (code m) serviceId = Some msOut /\
    map asyncView msOut = map (asyncMarked PASSWORD_FIELD_ASYNC_METHODS) (map asyncView msIn).
Proof.
  intros Hne H. rewrite createServiceModule_flat, length_nonzero in H by assumption.
  destruct (findClass _ serviceId) as [ms|] eqn:E; [|discriminate].
  destruct (injectParam _ ms) as [ms'|] eqn:E2; [|discriminate].
  injection H as Hm Htr. subst m tr. cbn [code].
  findClass_through_in E.
  exists ms. eexists. split; [exact E|]. split.
  - findClass_through. rewrite E. reflexivity.
  - apply (async_view_after_mutators _ _ _ _ E2).
Qed.

Lemma createServiceBaseModule_async SRC_DIRECTORY serviceBaseTemplate entityName mapping
  passwordFields serviceId serviceBaseId m tr :
  passwordFields <> [] ->
  createServiceBaseModule SRC_DIRECTORY serviceBaseTemplate entityName mapping
    passwordFields serviceId serviceBaseId = (Ok m, tr) ->
  exists msIn msOut,
    findClass (interpolate mapping serviceBaseTemplate) serviceBaseId = Some msIn /\
    findClass (code m) serviceBaseId = Some msOut /\
    map asyncView msOut = map (asyncMarked PASSWORD_FIELD_ASYNC_METHODS) (map asyncView msIn).
Proof.
  intros Hne H. rewrite createServiceBaseModule_flat, length_nonzero in H by assumption.
  destruct (findClass _ serviceBaseId) as [ms|] eqn:E; [|discriminate].
  destruct (injectParam _ ms) as [ms'|] eqn:E2; [|discriminate].
  injection H as Hm Htr. subst m tr. cbn [code].
  findClass_through_in E.
  exists ms. eexists. split; [exact E|]. split.
  - findClass_through. rewrite E. reflexivity.
  - rewrite <- (injectParam_asyncView _ _ _ E2), !map_map.
    apply map_ext. intros x. apply asyncView_markAsync.
Qed.

Lemma createServiceModule_succeeds SRC_DIRECTORY serviceTemplate entityName mapping
  passwordFields serviceId serviceBaseId ms :
  findClass (interpolate mapping serviceTemplate) serviceId = Some ms ->
  hasConstructor ms = true ->
  exists m tr, createServiceModule SRC_DIRECTORY serviceTemplate entityName mapping
                 passwordFields serviceId serviceBaseId = (Ok m, tr).
Proof.
  intros E Hc. rewrite createServiceModule_flat.
  destruct (Nat.eqb (length passwordFields) 0); [eexists; eexists; reflexivity|].
  findClass_through. rewrite E.
  destruct (injectParam_hasConstructor passwordServiceParam ms Hc) as [ms' ->].
  eexists; eexists; reflexivity.
Qed.

Lemma createServiceBaseModule_succeeds SRC_DIRECTORY serviceBaseTemplate entityName
  mapping passwordFields serviceId serviceBaseId ms :
  findClass (interpolate mapping serviceBaseTemplate) serviceBaseId = Some ms ->
  hasConstructor ms = true ->
  exists m tr, createServiceBaseModule SRC_DIRECTORY serviceBaseTemplate entityName
                 mapping passwordFields serviceId serviceBaseId = (Ok m, tr).
Proof.
  intros E Hc. rewrite createServiceBaseModule_flat.
  destruct (Nat.eqb (length passwordFields) 0); [eexists; eexists; reflexivity|].
  findClass_through. rewrite E.
  destruct (injectParam_hasConstructor passwordServiceParam ms Hc) as [ms' ->].
  eexists; eexists; reflexivity.
Qed.

Lemma createServiceModulesRun_intro SRC_DIRECTORY serviceTemplate serviceBaseTemplate
  entityName entityType entity m1 tr1 m2 tr2 :
  let pw := filter isPasswordField (entityFields entity) in
  let mapping := createMapping entityName entityType pw in
  createServiceModule SRC_DIRECTORY serviceTemplate entityName mapping pw
    (createServiceId entityType) (createServiceBaseId entityType) = (Ok m1, tr1) ->
  createServiceBaseModule SRC_DIRECTORY serviceBaseTemplate entityName mapping pw
    (createServiceId entityType) (createServiceBaseId entityType) = (Ok m2, tr2) ->
  createServiceModulesRun SRC_DIRECTORY serviceTemplate serviceBaseTemplate
    entityName entityType entity = Ok [(m1, tr1); (m2, tr2)].
Proof.
  intros pw mapping H1 H2. unfold createServiceModulesRun. fold pw mapping.
  rewrite H1, H2. reflexivity.
Qed.

Lemma serviceBaseId_not_transform_helper (entityType : string) :
  String.eqb "transformStringFieldUpdateInput" (createServiceBaseId entityType) = false.
Proof.
  apply String.eqb_neq. intros Heq.
  apply (f_equal (fun s => rev (list_ascii_of_string s))) in Heq.
  unfold createServiceBaseId in Heq.
  rewrite list_ascii_of_string_app, rev_app_distr in Heq. discriminate.
Qed.

(** ** C1 *)

(** C1: for every entity with at least one password field, the
    [CREATE_ARGS_MAPPING] slot is [{...args, data: {...args.data, f1: ...,
    fn: ...}}] with one override [fi: await this.passwordService.hash(
    args.data.fi)] per password field, after the spread of [args.data];
    so the last property of the data object carrying the key of any
    password field is its hashed override, wherever the field sits in the
    entity's field list. *)
Theorem create_args_mapping_hash_overrides_win
  (entityName entityType : string) (entity : Entity) :
  filter isPasswordField (entityFields entity) <> [] ->
  let pw := filter isPasswordField (entityFields entity) in
  let dataProps := PSpread (EMember ARGS_ID DATA_ID) :: map createArgsOverride pw in
  lookupMapping (createMapping entityName entityType pw) "CREATE_ARGS_MAPPING" =
    Some (EObject [PSpread ARGS_ID; PProp DATA_ID (EObject dataProps)]) /\
  (forall f, In f pw ->
     createArgsOverride f =
       PProp (fieldName f)
         (EAwait (ECall HASH_MEMBER_EXPRESSION [argsDataField (fieldName f)])) /\
     lastPropFor (fieldName f) dataProps =
       Some (EAwait (ECall HASH_MEMBER_EXPRESSION [argsDataField (fieldName f)]))).
Proof.
  intros Hne pw dataProps. split.
  - unfold createMapping. simpl. unfold pw in *.
    destruct (filter isPasswordField (entityFields entity)); [contradiction|].
    reflexivity.
  - intros f Hin. split; [reflexivity|].
    unfold dataProps. simpl. apply lastPropFor_createArgsOverride. assumption.
Qed.

(** ** C2 *)

(** C2: for every entity with at least one password field, the
    [UPDATE_ARGS_MAPPING] slot spreads [args] and [args.data] and overrides
    each password field [f] with [args.data.f && await
    transformStringFieldUpdateInput(args.data.f, (password) =>
    this.passwordService.hash(password))]; when the supplied value of [f]
    is absent or falsy, that expression evaluates to the supplied value and
    calls no function (in particular not the transform helper). *)
Theorem update_args_mapping_short_circuit
  (entityName entityType : string) (entity : Entity) (f : EntityField)
  (env : Env) (thisV : Value) (argsProps dataProps : list (string * Value)) :
  In f (filter isPasswordField (entityFields entity)) ->
  evalExpr env thisV ARGS_ID = Some (VObj argsProps, []) ->
  lookupProp argsProps DATA_ID = VObj dataProps ->
  truthy (lookupProp dataProps (fieldName f)) = false ->
  let pw := filter isPasswordField (entityFields entity) in
  let n := fieldName f in
  let override :=
    ELogical LAnd (argsDataField n)
      (EAwait (ECall (EId TRANSFORM_STRING_FIELD_UPDATE_INPUT_ID)
                 [argsDataField n;
                  EArrow ["password"] (ECall HASH_MEMBER_EXPRESSION [EId "password"])])) in
  lookupMapping (createMapping entityName entityType pw) "UPDATE_ARGS_MAPPING" =
    Some (EObject [PSpread ARGS_ID;
                   PProp DATA_ID (EObject (PSpread (EMember ARGS_ID DATA_ID) ::
                                           map updateArgsOverride pw))]) /\
  updateArgsOverride f = PProp n override /\
  evalExpr env thisV override = Some (lookupProp dataProps n, []).
Proof.
  intros Hin Hargs Hdata Hfalsy pw n override.
  split; [|split; [reflexivity|]].
  - unfold createMapping. simpl. unfold pw in *.
    destruct (filter isPasswordField (entityFields entity)); [contradiction|].
    reflexivity.
  - unfold override, argsDataField, ARGS_ID in *. simpl in Hargs |- *.
    destruct (find (fun kv => String.eqb (fst kv) "args") env) as [[k v]|];
      [|discriminate].
    inversion Hargs; subst v. simpl. rewrite Hdata.
    simpl. unfold n. rewrite Hfalsy. reflexivity.
Qed.

(** ** C6 *)

(** C6: for an entity with no password field, both mapping slots
    [CREATE_ARGS_MAPPING] and [UPDATE_ARGS_MAPPING] are the bare identifier
    [args], and the two artifacts are exactly the interpolated templates
    with the scaffold removed, the concrete one also importing the base
    class: no collaborator import, injected member, super-call argument or
    async flag is added. *)
Theorem no_password_fields_pass_through
  (SRC_DIRECTORY : string) (serviceTemplate serviceBaseTemplate : File)
  (entityName entityType : string) (entity : Entity) :
  filter isPasswordField (entityFields entity) = [] ->
  let mapping := createMapping entityName entityType [] in
  let modulePath := serviceModulePath SRC_DIRECTORY entityName in
  let moduleBasePath := serviceBaseModulePath SRC_DIRECTORY entityName in
  lookupMapping mapping "CREATE_ARGS_MAPPING" = Some ARGS_ID /\
  lookupMapping mapping "UPDATE_ARGS_MAPPING" = Some ARGS_ID /\
  createServiceModules SRC_DIRECTORY serviceTemplate serviceBaseTemplate
    entityName entityType entity =
  Ok [{| path := modulePath;
         code := stripScaffold
                   (addImports (removeTSClassDeclares (interpolate mapping serviceTemplate))
                      [importNames [createServiceBaseId entityType]
                         (relativeImportPath modulePath moduleBasePath)]) |};
      {| path := moduleBasePath;
         code := stripScaffold
                   (removeTSClassDeclares (interpolate mapping serviceBaseTemplate)) |}].
Proof.
  intros Hnone mapping modulePath moduleBasePath.
  split; [reflexivity|]. split; [reflexivity|].
  unfold createServiceModules, createServiceModulesRun. rewrite Hnone.
  reflexivity.
Qed.

(** ** C7 *)

(** C7: whenever [createServiceModules] produces its two artifacts, for any
    root directory and any entity name that is a single path segment, the
    concrete artifact is at [<root>/<e>/<e>.service.ts], the base artifact
    at [<root>/<e>/base/<e>.service.base.ts], and the concrete artifact
    imports the base class from [./base/<e>.service.base]. *)
Theorem service_paths_and_base_import
  (SRC_DIRECTORY : string) (serviceTemplate serviceBaseTemplate : File)
  (entityName entityType : string) (entity : Entity)
  (m1 m2 : Module) (tr1 tr2 : list Op) :
  plainSegment entityName = true ->
  createServiceModulesRun SRC_DIRECTORY serviceTemplate serviceBaseTemplate
    entityName entityType entity = Ok [(m1, tr1); (m2, tr2)] ->
  path m1 = SRC_DIRECTORY ++ "/" ++ entityName ++ "/" ++ entityName ++ ".service.ts" /\
  path m2 = SRC_DIRECTORY ++ "/" ++ entityName ++ "/base/" ++ entityName
              ++ ".service.base.ts" /\
  In (OpAddImports [importNames [createServiceBaseId entityType]
                      ("./base/" ++ entityName ++ ".service.base")]) tr1.
Proof.
  intros Hplain H.
  apply createServiceModulesRun_inv in H as (m1' & tr1' & m2' & tr2' & Hr & H1 & H2).
  inversion Hr; subst m1' tr1' m2' tr2'. clear Hr.
  apply createServiceModule_ok_shape in H1 as [Hp1 [rest Htr]].
  apply createServiceBaseModule_ok_path in H2.
  split; [exact Hp1|]. split; [exact H2|].
  rewrite Htr, relativeImportPath_service_base by assumption.
  simpl. auto.
Qed.

(** ** C4 *)

(** C4: when the entity has a password field and both artifacts are
    produced, in each artifact's target class exactly the methods whose
    key is the identifier [create] or [update] become async: every member
    of the class after the pipeline has the key and async flag it had after
    interpolation, except that those two methods are async. *)
Theorem password_async_methods_create_update
  (SRC_DIRECTORY : string) (serviceTemplate serviceBaseTemplate : File)
  (entityName entityType : string) (entity : Entity)
  (m1 m2 : Module) (tr1 tr2 : list Op) :
  filter isPasswordField (entityFields entity) <> [] ->
  createServiceModulesRun SRC_DIRECTORY serviceTemplate serviceBaseTemplate
    entityName entityType entity = Ok [(m1, tr1); (m2, tr2)] ->
  let mapping := createMapping entityName entityType
                   (filter isPasswordField (entityFields entity)) in
  (exists msIn msOut,
     findClass (interpolate mapping serviceTemplate) (createServiceId entityType) = Some msIn /\
     findClass (code m1) (createServiceId entityType) = Some msOut /\
     map asyncView msOut = map (asyncMarked ["create"; "update"]) (map asyncView msIn)) /\
  (exists msIn msOut,
     findClass (interpolate mapping serviceBaseTemplate) (createServiceBaseId entityType)
       = Some msIn /\
     findClass (code m2) (createServiceBaseId entityType) = Some msOut /\
     map asyncView msOut = map (asyncMarked ["create"; "update"]) (map asyncView msIn)).
Proof.
  intros Hne H mapping.
  apply createServiceModulesRun_inv in H as (m1' & tr1' & m2' & tr2' & Hr & H1 & H2).
  inversion Hr; subst m1' tr1' m2' tr2'. clear Hr.
  split.
  - exact (createServiceModule_async _ _ _ _ _ _ _ _ _ Hne H1).
  - exact (createServiceBaseModule_async _ _ _ _ _ _ _ _ _ Hne H2).
Qed.

(** ** C10 *)

(** C10: when the entity has a password field and each template's target
    class exists (with its constructor), both artifacts are produced
    whether or not the class has a [create] or an [update] method: the
    async marking raises nothing for a missing name, and flips exactly the
    [create]/[update] methods present. *)
Theorem async_marking_skips_missing_methods
  (SRC_DIRECTORY : string) (serviceTemplate serviceBaseTemplate : File)
  (entityName entityType : string) (entity : Entity)
  (ms1 ms2 : list ClassMember) :
  filter isPasswordField (entityFields entity) <> [] ->
  let mapping := createMapping entityName entityType
                   (filter isPasswordField (entityFields entity)) in
  findClass (interpolate mapping serviceTemplate) (createServiceId entityType) = Some ms1 ->
  hasConstructor ms1 = true ->
  findClass (interpolate mapping serviceBaseTemplate) (createServiceBaseId entityType)
    = Some ms2 ->
  hasConstructor ms2 = true ->
  exists m1 tr1 m2 tr2,
    createServiceModulesRun SRC_DIRECTORY serviceTemplate serviceBaseTemplate
      entityName entityType entity = Ok [(m1, tr1); (m2, tr2)] /\
    (exists out1, findClass (code m1) (createServiceId entityType) = Some out1 /\
       map asyncView out1 = map (asyncMarked ["create"; "update"]) (map asyncView ms1)) /\
    (exists out2, findClass (code m2) (createServiceBaseId entityType) = Some out2 /\
       map asyncView out2 = map (asyncMarked ["create"; "update"]) (map asyncView ms2)).
Proof.
  intros Hne mapping E1 C1 E2 C2.
  destruct (createServiceModule_succeeds SRC_DIRECTORY serviceTemplate entityName mapping
              (filter isPasswordField (entityFields entity)) (createServiceId entityType)
              (createServiceBaseId entityType) ms1 E1 C1) as (m1 & tr1 & H1).
  destruct (createServiceBaseModule_succeeds SRC_DIRECTORY serviceBaseTemplate entityName
              mapping (filter isPasswordField (entityFields entity))
              (createServiceId entityType) (createServiceBaseId entityType) ms2 E2 C2)
    as (m2 & tr2 & H2).
  exists m1, tr1, m2, tr2. split.
  - apply createServiceModulesRun_intro; assumption.
  - split.
    + destruct (createServiceModule_async _ _ _ _ _ _ _ _ _ Hne H1)
        as (msIn & msOut & Ein & Eout & Hv).
      rewrite E1 in Ein. injection Ein as <-. exists msOut. auto.
    + destruct (createServiceBaseModule_async _ _ _ _ _ _ _ _ _ Hne H2)
        as (msIn & msOut & Ein & Eout & Hv).
      rewrite E2 in Ein. injection Ein as <-. exists msOut. auto.
Qed.

(** ** C3 *)

(** C3: when [createServiceModules] produces both artifacts, the two
    pipelines take the same password-field branch (both look the class up
    and mutate it iff the entity has a password field), interpolate with the
    same mapping, inject the same collaborator ([protected readonly
    passwordService: PasswordService]) and mark the same method names
    ([create], [update]) async. *)
Theorem artifact_pair_symmetry
  (SRC_DIRECTORY : string) (serviceTemplate serviceBaseTemplate : File)
  (entityName entityType : string) (entity : Entity)
  (m1 m2 : Module) (tr1 tr2 : list Op) :
  createServiceModulesRun SRC_DIRECTORY serviceTemplate serviceBaseTemplate
    entityName entityType entity = Ok [(m1, tr1); (m2, tr2)] ->
  let pw := filter isPasswordField (entityFields entity) in
  let mapping := createMapping entityName entityType pw in
  let mutates := negb (Nat.eqb (length pw) 0) in
  existsb isGetClassOp tr1 = mutates /\
  existsb isGetClassOp tr2 = mutates /\
  filter isInterpolateOp tr1 = [OpInterpolate mapping] /\
  filter isInterpolateOp tr2 = [OpInterpolate mapping] /\
  filter isInjectOp tr1 = filter isInjectOp tr2 /\
  filter isInjectOp tr1 =
    (if mutates then [OpAddInjectableDependency "passwordService" "PasswordService" "protected"]
     else []) /\
  filter isMarkAsyncOp tr1 = filter isMarkAsyncOp tr2 /\
  filter isMarkAsyncOp tr1 = (if mutates then [OpMarkAsync ["create"; "update"]] else []).
Proof.
  intros H pw mapping mutates.
  apply createServiceModulesRun_inv in H as (m1' & tr1' & m2' & tr2' & Hr & H1 & H2).
  inversion Hr; subst m1' tr1' m2' tr2'. clear Hr.
  fold pw mapping in H1, H2.
  rewrite createServiceModule_flat in H1. rewrite createServiceBaseModule_flat in H2.
  unfold mutates. destruct (Nat.eqb (length pw) 0).
  - injection H1 as _ <-. injection H2 as _ <-. simpl. repeat split.
  - destruct (findClass _ (createServiceId entityType)) in H1; [|discriminate].
    destruct (injectParam _ _) in H1; [|discriminate].
    destruct (findClass _ (createServiceBaseId entityType)) in H2; [|discriminate].
    destruct (injectParam _ _) in H2; [|discriminate].
    injection H1 as _ <-. injection H2 as _ <-. simpl. repeat split.
Qed.

(** ** C5 *)

(** C5: for an entity with a password field, when both artifacts are
    produced, only the concrete pipeline splices [passwordService] into the
    super-constructor call (the splice appends it after the existing
    arguments, in their order), and only the base pipeline adds an import
    of [transformStringFieldUpdateInput] (from the [prisma.util] module,
    relative to the base artifact). *)
Theorem collaborator_injection_asymmetry
  (SRC_DIRECTORY : string) (serviceTemplate serviceBaseTemplate : File)
  (entityName entityType : string) (entity : Entity)
  (m1 m2 : Module) (tr1 tr2 : list Op) :
  filter isPasswordField (entityFields entity) <> [] ->
  createServiceModulesRun SRC_DIRECTORY serviceTemplate serviceBaseTemplate
    entityName entityType entity = Ok [(m1, tr1); (m2, tr2)] ->
  filter isSuperSpliceOp tr1 = [OpAddIdentifierToConstructorSuperCall "passwordService"] /\
  filter isSuperSpliceOp tr2 = [] /\
  filter (importsSymbol "transformStringFieldUpdateInput") tr2 =
    [OpAddImports [importNames ["transformStringFieldUpdateInput"]
                     (relativeImportPath (serviceBaseModulePath SRC_DIRECTORY entityName)
                        (PRISMA_UTIL_MODULE_PATH SRC_DIRECTORY))]] /\
  filter (importsSymbol "transformStringFieldUpdateInput") tr1 = [] /\
  (forall args : list Expr,
     spliceSuperArg "passwordService" (BExpr (ECall ESuper args)) =
     BExpr (ECall ESuper (args ++ [EId "passwordService"])%list)).
Proof.
  intros Hne H.
  apply createServiceModulesRun_inv in H as (m1' & tr1' & m2' & tr2' & Hr & H1 & H2).
  inversion Hr; subst m1' tr1' m2' tr2'. clear Hr.
  rewrite createServiceModule_flat, length_nonzero in H1 by assumption.
  rewrite createServiceBaseModule_flat, length_nonzero in H2 by assumption.
  destruct (findClass _ (createServiceId entityType)) in H1; [|discriminate].
  destruct (injectParam _ _) in H1; [|discriminate].
  destruct (findClass _ (createServiceBaseId entityType)) in H2; [|discriminate].
  destruct (injectParam _ _) in H2; [|discriminate].
  injection H1 as _ <-. injection H2 as _ <-.
  split; [reflexivity|]. split; [reflexivity|]. split; [reflexivity|].
  split; [|reflexivity].
  unfold scaffoldOps.
  cbn [filter app importsSymbol existsb specifiers importNames].
  rewrite serviceBaseId_not_transform_helper. reflexivity.
Qed.

(** ** C8 *)

(** C8 (as stated, refuted): on the [Customer] scenario, the scaffold
    removal of template-only class declarations runs before the structural
    mutators in both pipelines, so not every scaffold-stripping operation
    follows them. *)
Lemma scaffold_removal_before_mutators :
  exists m1 tr1 m2 tr2,
    createServiceModulesRun "server/src" sampleServiceTemplate sampleServiceBaseTemplate
      "customer" "Customer" customerEntity = Ok [(m1, tr1); (m2, tr2)] /\
    stripsAfterMutators isScaffoldStripOp isStructuralMutatorOp tr1 = false /\
    stripsAfterMutators isScaffoldStripOp isStructuralMutatorOp tr2 = false.
Proof. do 4 eexists. split; [vm_compute; reflexivity|]. split; vm_compute; reflexivity. Qed.

(** C8 (amended): in both pipelines, for any input and whatever the
    outcome, the removal of template-only class declarations runs right
    after interpolation, and the four other scaffold removals (TS-ignore
    comments, ESLint comments, variable declares, interface declares) run
    strictly after every structural mutator and import addition. *)
Theorem scaffold_removal_order
  (SRC_DIRECTORY : string) (serviceTemplate serviceBaseTemplate : File)
  (entityName : string) (mapping : Mapping) (passwordFields : list EntityField)
  (serviceId serviceBaseId : string) :
  let tr1 := snd (createServiceModule SRC_DIRECTORY serviceTemplate entityName mapping
                    passwordFields serviceId serviceBaseId) in
  let tr2 := snd (createServiceBaseModule SRC_DIRECTORY serviceBaseTemplate entityName
                    mapping passwordFields serviceId serviceBaseId) in
  firstn 2 tr1 = [OpInterpolate mapping; OpRemoveTSClassDeclares] /\
  firstn 2 tr2 = [OpInterpolate mapping; OpRemoveTSClassDeclares] /\
  stripsAfterMutators isTrailingScaffoldStripOp isStructuralMutatorOp tr1 = true /\
  stripsAfterMutators isTrailingScaffoldStripOp isStructuralMutatorOp tr2 = true.
Proof.
  intros tr1 tr2. unfold tr1, tr2.
  rewrite createServiceModule_flat, createServiceBaseModule_flat.
  destruct (Nat.eqb (length passwordFields) 0); [repeat split|].
  destruct (findClass _ serviceId); [destruct (injectParam _ _)|];
  destruct (findClass _ serviceBaseId); try destruct (injectParam _ _);
  repeat split.
Qed.

(** ** C9 *)

(** C9 (as stated, refuted): an entity without password fields gets both
    artifacts from templates that lack the [TagService] and
    [TagServiceBase] class declarations: the class is never looked up. *)
Lemma missing_class_no_password_fields :
  findClass (interpolate (createMapping "tag" "Tag" []) classlessTemplate) "TagService" = None /\
  findClass (interpolate (createMapping "tag" "Tag" []) classlessTemplate) "TagServiceBase"
    = None /\
  exists mods, createServiceModules "server/src" classlessTemplate classlessTemplate
                 "tag" "Tag" tagEntity = Ok mods.
Proof.
  split; [reflexivity|]. split; [reflexivity|]. eexists. vm_compute. reflexivity.
Qed.

(** C9 (amended): when a loaded template lacks, after interpolation, the
    class declaration of its conventional identifier ([serviceId] for the
    concrete template, [serviceBaseId] for the base one), the synthesis
    fails with an error exactly when the entity has a password field;
    without password fields the artifacts are produced. *)
Theorem missing_class_fails_iff_password_fields
  (SRC_DIRECTORY : string) (serviceTemplate serviceBaseTemplate : File)
  (entityName entityType : string) (entity : Entity) :
  let pw := filter isPasswordField (entityFields entity) in
  let mapping := createMapping entityName entityType pw in
  findClass (interpolate mapping serviceTemplate) (createServiceId entityType) = None \/
  findClass (interpolate mapping serviceBaseTemplate) (createServiceBaseId entityType) = None ->
  (exists e, createServiceModules SRC_DIRECTORY serviceTemplate serviceBaseTemplate
               entityName entityType entity = Err e) <-> pw <> [].
Proof.
  intros pw mapping Hmiss.
  unfold createServiceModules, createServiceModulesRun. fold pw mapping.
  rewrite createServiceModule_flat, createServiceBaseModule_flat.
  destruct pw as [|f pw'] eqn:Epw.
  - simpl. split; [intros [e He]; discriminate|intros Hne; contradiction].
  - cbn [length Nat.eqb]. split; [intros _; discriminate|intros _].
    findClass_through.
    destruct Hmiss as [E|E]; rewrite E.
    + eexists. reflexivity.
    + destruct (findClass (interpolate mapping serviceTemplate) _); [|eexists; reflexivity].
      destruct (injectParam _ _); eexists; reflexivity.
Qed.

(** * Instances of the hypotheses

    Each theorem with hypotheses, applied on the [Customer] or [Tag]
    scenario of the specification, where its hypotheses hold. *)

Lemma create_args_mapping_hash_overrides_win_witness :
  filter isPasswordField (entityFields customerEntity) <> [] /\
  lastPropFor "password"
    (PSpread (EMember ARGS_ID DATA_ID) ::
     map createArgsOverride (filter isPasswordField (entityFields customerEntity))) =
  Some (EAwait (ECall HASH_MEMBER_EXPRESSION [argsDataField "password"])).
Proof.
  split; [discriminate|].
  destruct (create_args_mapping_hash_overrides_win "customer" "Customer" customerEntity
              ltac:(discriminate)) as [_ Hall].
  apply (Hall customerPassword). left. reflexivity.
Defined.

Lemma update_args_mapping_short_circuit_witness :
  evalExpr emptyDataEnv (VObj [])
    (ELogical LAnd (argsDataField "password")
       (EAwait (ECall (EId TRANSFORM_STRING_FIELD_UPDATE_INPUT_ID)
                  [argsDataField "password";
                   EArrow ["password"] (ECall HASH_MEMBER_EXPRESSION [EId "password"])])))
  = Some (VUndefined, []).
Proof.
  apply (update_args_mapping_short_circuit "customer" "Customer" customerEntity
           customerPassword emptyDataEnv (VObj []) [("data", VObj [])] []);
    [left; reflexivity | reflexivity | reflexivity | reflexivity].
Defined.

Lemma no_password_fields_pass_through_witness :
  filter isPasswordField (entityFields tagEntity) = [] /\
  lookupMapping (createMapping "tag" "Tag" []) "UPDATE_ARGS_MAPPING" = Some ARGS_ID.
Proof.
  split; [reflexivity|].
  apply (no_password_fields_pass_through "server/src" sampleServiceTemplate
           sampleServiceBaseTemplate "tag" "Tag" tagEntity); reflexivity.
Defined.

Lemma customer_run_ok :
  exists m1 tr1 m2 tr2,
    createServiceModulesRun "server/src" sampleServiceTemplate sampleServiceBaseTemplate
      "customer" "Customer" customerEntity = Ok [(m1, tr1); (m2, tr2)].
Proof. do 4 eexists. vm_compute. reflexivity. Qed.

Lemma service_paths_and_base_import_witness :
  exists m1 tr1 m2 tr2,
    createServiceModulesRun "server/src" sampleServiceTemplate sampleServiceBaseTemplate
      "customer" "Customer" customerEntity = Ok [(m1, tr1); (m2, tr2)] /\
    path m2 = "server/src/customer/base/customer.service.base.ts".
Proof.
  destruct customer_run_ok as (m1 & tr1 & m2 & tr2 & Hrun).
  exists m1, tr1, m2, tr2. split; [exact Hrun|].
  destruct (service_paths_and_base_import "server/src" sampleServiceTemplate
              sampleServiceBaseTemplate "customer" "Customer" customerEntity
              m1 m2 tr1 tr2 eq_refl Hrun) as [_ [H _]].
  exact H.
Defined.

Lemma password_async_methods_create_update_witness :
  exists m1 tr1 m2 tr2,
    createServiceModulesRun "server/src" sampleServiceTemplate sampleServiceBaseTemplate
      "customer" "Customer" customerEntity = Ok [(m1, tr1); (m2, tr2)] /\
    exists msIn msOut,
      findClass (code m2) "CustomerServiceBase" = Some msOut /\
      findClass (interpolate (createMapping "customer" "Customer"
                   (filter isPasswordField (entityFields customerEntity)))
                   sampleServiceBaseTemplate) "CustomerServiceBase" = Some msIn /\
      map asyncView msOut = map (asyncMarked ["create"; "update"]) (map asyncView msIn).
Proof.
  destruct customer_run_ok as (m1 & tr1 & m2 & tr2 & Hrun).
  exists m1, tr1, m2, tr2. split; [exact Hrun|].
  destruct (password_async_methods_create_update "server/src" sampleServiceTemplate
              sampleServiceBaseTemplate "customer" "Customer" customerEntity
              m1 m2 tr1 tr2 ltac:(discriminate) Hrun)
    as [_ (msIn & msOut & Ein & Eout & Hv)].
  exists msIn, msOut. split; [exact Eout|]. split; [exact Ein|exact Hv].
Defined.

Lemma async_marking_skips_missing_methods_witness :
  findClass (interpolate (createMapping "customer" "Customer"
               (filter isPasswordField (entityFields customerEntity)))
               sampleServiceTemplate) "CustomerService" <> None /\
  exists m1 tr1 m2 tr2,
    createServiceModulesRun "server/src" sampleServiceTemplate sampleServiceBaseTemplate
      "customer" "Customer" customerEntity = Ok [(m1, tr1); (m2, tr2)].
Proof.
  split; [vm_compute; discriminate|].
  destruct (async_marking_skips_missing_methods "server/src" sampleServiceTemplate
              sampleServiceBaseTemplate "customer" "Customer" customerEntity
              _ _ ltac:(discriminate) ltac:(vm_compute; reflexivity)
              ltac:(vm_compute; reflexivity) ltac:(vm_compute; reflexivity)
              ltac:(vm_compute; reflexivity))
    as (m1 & tr1 & m2 & tr2 & H & _).
  exists m1, tr1, m2, tr2. exact H.
Defined.

Lemma artifact_pair_symmetry_witness :
  exists m1 tr1 m2 tr2,
    createServiceModulesRun "server/src" sampleServiceTemplate sampleServiceBaseTemplate
      "customer" "Customer" customerEntity = Ok [(m1, tr1); (m2, tr2)] /\
    filter isInjectOp tr1 = filter isInjectOp tr2.
Proof.
  destruct customer_run_ok as (m1 & tr1 & m2 & tr2 & Hrun).
  exists m1, tr1, m2, tr2. split; [exact Hrun|].
  destruct (artifact_pair_symmetry "server/src" sampleServiceTemplate
              sampleServiceBaseTemplate "customer" "Customer" customerEntity
              m1 m2 tr1 tr2 Hrun) as (_ & _ & _ & _ & H & _).
  exact H.
Defined.

Lemma collaborator_injection_asymmetry_witness :
  exists m1 tr1 m2 tr2,
    createServiceModulesRun "server/src" sampleServiceTemplate sampleServiceBaseTemplate
      "customer" "Customer" customerEntity = Ok [(m1, tr1); (m2, tr2)] /\
    filter isSuperSpliceOp tr2 = [].
Proof.
  destruct customer_run_ok as (m1 & tr1 & m2 & tr2 & Hrun).
  exists m1, tr1, m2, tr2. split; [exact Hrun|].
  destruct (collaborator_injection_asymmetry "server/src" sampleServiceTemplate
              sampleServiceBaseTemplate "customer" "Customer" customerEntity
              m1 m2 tr1 tr2 ltac:(discriminate) Hrun) as (_ & H & _).
  exact H.
Defined.

Lemma missing_class_fails_iff_password_fields_witness :
  findClass (interpolate (createMapping "customer" "Customer"
               (filter isPasswordField (entityFields customerEntity)))
               classlessTemplate) "CustomerService" = None /\
  exists e, createServiceModules "server/src" classlessTemplate classlessTemplate
              "customer" "Customer" customerEntity = Err e.
Proof.
  split; [reflexivity|].
  apply (missing_class_fails_iff_password_fields "server/src" classlessTemplate
           classlessTemplate "customer" "Customer" customerEntity);
    [left; reflexivity | discriminate].
Defined.

(** * Further properties of the generator *)

(** ** Identifiers and destination paths *)

Lemma app_same_length_inv {A} (a b x y : list A) :
  length a = length b -> (a ++ x)%list = (b ++ y)%list -> a = b.
Proof.
  revert b. induction a as [|u a IH]; intros [|v b] Hl H; try discriminate; [reflexivity|].
  simpl in *. injection H as -> H. f_equal. apply IH; [lia|exact H].
Qed.

Lemma list_ascii_of_string_inj (s t : string) :
  list_ascii_of_string s = list_ascii_of_string t -> s = t.
Proof.
  intros H. rewrite <- (string_of_list_ascii_of_string s), <- (string_of_list_ascii_of_string t).
  rewrite H. reflexivity.
Qed.

Lemma length_list_ascii_of_string (s : string) :
  length (list_ascii_of_string s) = String.length s.
Proof. induction s as [|c s IH]; simpl; [reflexivity|]. rewrite IH. reflexivity. Qed.

Lemma string_app_inv_head (a x y : string) : a ++ x = a ++ y -> x = y.
Proof. induction a as [|c a IH]; simpl; intros H; [exact H|]. injection H as H. exact (IH H). Qed.

(** A name followed by a separator and itself, then a fixed suffix,
    determines the name. *)
Lemma doubled_name_inj (e1 e2 sep suf : string) :
  e1 ++ sep ++ e1 ++ suf = e2 ++ sep ++ e2 ++ suf -> e1 = e2.
Proof.
  intros H. apply (f_equal list_ascii_of_string) in H.
  rewrite !list_ascii_of_string_app in H.
  assert (Hl : length (list_ascii_of_string e1) = length (list_ascii_of_string e2)).
  { apply (f_equal (@length ascii)) in H. rewrite !length_app in H. lia. }
  apply list_ascii_of_string_inj. exact (app_same_length_inv _ _ _ _ Hl H).
Qed.

(** X1: the concrete service class and the base service class never share
    a name, whatever the two entity types. *)
Theorem createServiceId_ne_createServiceBaseId (entityType1 entityType2 : string) :
  createServiceId entityType1 <> createServiceBaseId entityType2.
Proof.
  unfold createServiceId, createServiceBaseId. intros H.
  apply (f_equal (fun s => rev (list_ascii_of_string s))) in H.
  rewrite !list_ascii_of_string_app, !rev_app_distr in H. discriminate.
Qed.

(** X2: distinct entity types get distinct service class names, and
    distinct base service class names. *)
Theorem service_ids_injective (entityType1 entityType2 : string) :
  (createServiceId entityType1 = createServiceId entityType2 -> entityType1 = entityType2) /\
  (createServiceBaseId entityType1 = createServiceBaseId entityType2 ->
   entityType1 = entityType2).
Proof.
  unfold createServiceId, createServiceBaseId.
  split; intros H; apply (f_equal list_ascii_of_string) in H;
    rewrite !list_ascii_of_string_app in H; apply app_inv_tail in H;
    apply list_ascii_of_string_inj; exact H.
Qed.

(** X3: under one source directory, the destination paths of the
    generated artifacts never collide: a concrete service path is never a
    base service path, and each kind of path determines the entity name. *)
Theorem artifact_paths_distinct (SRC_DIRECTORY entityName1 entityName2 : string) :
  serviceModulePath SRC_DIRECTORY entityName1 <>
    serviceBaseModulePath SRC_DIRECTORY entityName2 /\
  (serviceModulePath SRC_DIRECTORY entityName1 = serviceModulePath SRC_DIRECTORY entityName2 ->
   entityName1 = entityName2) /\
  (serviceBaseModulePath SRC_DIRECTORY entityName1 =
     serviceBaseModulePath SRC_DIRECTORY entityName2 -> entityName1 = entityName2).
Proof.
  unfold serviceModulePath, serviceBaseModulePath. split; [|split].
  - intros H. apply (f_equal (fun s => rev (list_ascii_of_string s))) in H.
    rewrite !list_ascii_of_string_app, !rev_app_distr in H. discriminate.
  - intros H. apply string_app_inv_head in H. injection H as H.
    exact (doubled_name_inj _ _ "/" ".service.ts" H).
  - intros H. apply string_app_inv_head in H. injection H as H.
    exact (doubled_name_inj _ _ "/base/" ".service.base.ts" H).
Qed.

(** ** Run-time meaning of the generated argument mappings *)

Lemma evalExpr_EObject (env : Env) (thisV : Value) (ps : list ObjProp) :
  evalExpr env thisV (EObject ps) =
  option_map (fun '(props, t) => (VObj props, t)) (evalProps env thisV ps []).
Proof.
  cbn [evalExpr]. f_equal. generalize (@nil (string * Value)) as acc.
  induction ps as [|p ps IH]; intros acc; [reflexivity|].
  destruct p as [a|k a]; cbn [evalProps];
    destruct (evalExpr env thisV a) as [[v t]|]; try reflexivity; rewrite IH; reflexivity.
Qed.

Lemma evalExpr_EMember (env : Env) (thisV : Value) (o : Expr) (p : string) vo t :
  evalExpr env thisV o = Some (vo, t) ->
  evalExpr env thisV (EMember o p) = option_map (fun v => (v, t)) (getProp vo p).
Proof. intros H. cbn [evalExpr]. rewrite H. reflexivity. Qed.

Lemma evalExpr_call1 (env : Env) (thisV : Value) (c a : Expr) f va :
  evalExpr env thisV c = Some (VFun f, []) ->
  evalExpr env thisV a = Some (va, []) ->
  evalExpr env thisV (ECall c [a]) = Some (VCallResult f [va], [f]).
Proof. intros Hc Ha. cbn [evalExpr]. rewrite Hc, Ha. reflexivity. Qed.

Lemma evalExpr_call2 (env : Env) (thisV : Value) (c a b : Expr) f va vb :
  evalExpr env thisV c = Some (VFun f, []) ->
  evalExpr env thisV a = Some (va, []) ->
  evalExpr env thisV b = Some (vb, []) ->
  evalExpr env thisV (ECall c [a; b]) = Some (VCallResult f [va; vb], [f]).
Proof. intros Hc Ha Hb. cbn [evalExpr]. rewrite Hc, Ha, Hb. reflexivity. Qed.

Lemma evalExpr_argsDataField (env : Env) (thisV : Value) aps D (n : string) :
  evalExpr env thisV ARGS_ID = Some (VObj aps, []) ->
  lookupProp aps DATA_ID = VObj D ->
  evalExpr env thisV (argsDataField n) = Some (lookupProp D n, []).
Proof.
  intros Hargs Hdata. unfold argsDataField.
  rewrite (evalExpr_EMember _ _ _ _ (VObj D) []); [reflexivity|].
  rewrite (evalExpr_EMember _ _ _ _ _ _ Hargs). simpl. rewrite Hdata. reflexivity.
Qed.

Lemma lookupProp_setProp (props : list (string * Value)) (k k' : string) (v : Value) :
  lookupProp (setProp props k v) k' = if String.eqb k k' then v else lookupProp props k'.
Proof.
  induction props as [|[k0 v0] props IH]; simpl; [reflexivity|].
  destruct (String.eqb_spec k0 k) as [->|Hne]; simpl.
  - destruct (String.eqb k k'); reflexivity.
  - rewrite IH. destruct (String.eqb_spec k k') as [->|]; [|reflexivity].
    apply String.eqb_neq in Hne. rewrite Hne. reflexivity.
Qed.

Lemma lookupProp_absent (props : list (string * Value)) (k : string) :
  existsb (fun kv => String.eqb (fst kv) k) props = false -> lookupProp props k = VUndefined.
Proof.
  induction props as [|[k0 v0] props IH]; simpl; [reflexivity|].
  destruct (String.eqb k0 k); [discriminate|exact IH].
Qed.

(** Spreading an object with distinct keys makes its properties readable
    as they were. *)
Lemma lookupProp_spreadInto (props acc : list (string * Value)) (k : string) :
  NoDup (map fst props) ->
  lookupProp (spreadInto acc (VObj props)) k =
  if existsb (fun kv => String.eqb (fst kv) k) props then lookupProp props k
  else lookupProp acc k.
Proof.
  unfold spreadInto. revert acc.
  induction props as [|[k0 v0] props IH]; intros acc Hnd; simpl; [reflexivity|].
  inversion Hnd as [|? ? Hnotin Hnd']; subst.
  rewrite IH by exact Hnd'. rewrite lookupProp_setProp.
  destruct (String.eqb_spec k0 k) as [->|Hne]; simpl.
  - replace (existsb (fun kv => String.eqb (fst kv) k) props) with false; [reflexivity|].
    symmetry. apply Bool.not_true_iff_false. intros Hin.
    apply existsb_exists in Hin as [[k1 v1] [Hin Heq]]. simpl in Heq.
    apply String.eqb_eq in Heq. subst k1. apply Hnotin.
    change k with (fst (k, v1)). apply in_map. exact Hin.
  - reflexivity.
Qed.

Lemma lookupProp_spreadInto_nil (props : list (string * Value)) (k : string) :
  NoDup (map fst props) -> lookupProp (spreadInto [] (VObj props)) k = lookupProp props k.
Proof.
  intros Hnd. rewrite lookupProp_spreadInto by exact Hnd.
  destruct (existsb _ props) eqn:E; [reflexivity|]. simpl.
  symmetry. apply lookupProp_absent. exact E.
Qed.

(** Overrides whose values depend on the key only. *)
Lemma lookupProp_fold_overrides (pw : list EntityField) (val : string -> Value)
  (acc : list (string * Value)) (k : string) :
  lookupProp (fold_left (fun a f => setProp a (fieldName f) (val (fieldName f))) pw acc) k =
  if existsb (fun f => String.eqb (fieldName f) k) pw then val k else lookupProp acc k.
Proof.
  revert acc. induction pw as [|f pw IH]; intros acc; simpl; [reflexivity|].
  rewrite IH, lookupProp_setProp.
  destruct (existsb _ pw); [destruct (String.eqb (fieldName f) k); reflexivity|].
  destruct (String.eqb_spec (fieldName f) k) as [->|]; reflexivity.
Qed.

Lemma evalProps_overrides (env : Env) (thisV : Value) (ov : EntityField -> ObjProp)
  (val : EntityField -> Value) (tr : EntityField -> list string)
  (pw : list EntityField) (acc : list (string * Value)) :
  (forall f, In f pw -> exists e, ov f = PProp (fieldName f) e /\
                               evalExpr env thisV e = Some (val f, tr f)) ->
  evalProps env thisV (map ov pw) acc =
  Some (fold_left (fun a f => setProp a (fieldName f) (val f)) pw acc, flat_map tr pw).
Proof.
  revert acc. induction pw as [|f pw IH]; intros acc H; [reflexivity|].
  destruct (H f (or_introl eq_refl)) as (e & Hov & Hev).
  simpl map. rewrite Hov. cbn [evalProps]. rewrite Hev.
  rewrite IH by (intros g Hg; apply H; right; exact Hg). reflexivity.
Qed.

(** The evaluation of [createMutationDataMapping] on a non-empty list of
    overrides. *)
Lemma evalExpr_mutationDataMapping (env : Env) (thisV : Value) aps D
  (ov : EntityField -> ObjProp) (val : EntityField -> Value)
  (tr : EntityField -> list string) (pw : list EntityField) :
  pw <> [] ->
  evalExpr env thisV ARGS_ID = Some (VObj aps, []) ->
  lookupProp aps DATA_ID = VObj D ->
  (forall f, In f pw -> exists e, ov f = PProp (fieldName f) e /\
                               evalExpr env thisV e = Some (val f, tr f)) ->
  evalExpr env thisV (createMutationDataMapping (map ov pw)) =
  Some (VObj (setProp (spreadInto [] (VObj aps)) DATA_ID
                (VObj (fold_left (fun a f => setProp a (fieldName f) (val f)) pw
                         (spreadInto [] (VObj D))))),
        flat_map tr pw).
Proof.
  intros Hne Hargs Hdata Hov.
  destruct pw as [|f0 pw0]; [contradiction|].
  cbn [map createMutationDataMapping]. rewrite <- (map_cons ov f0 pw0).
  rewrite evalExpr_EObject. cbn [evalProps]. rewrite Hargs. cbn [evalProps].
  rewrite evalExpr_EObject. cbn [evalProps].
  rewrite (evalExpr_EMember _ _ _ _ _ _ Hargs). simpl getProp. rewrite Hdata.
  cbn [option_map]. rewrite (evalProps_overrides _ _ ov val tr) by exact Hov.
  cbn [option_map app]. rewrite app_nil_r. reflexivity.
Qed.

Lemma evalExpr_EAwait (env : Env) (thisV : Value) (a : Expr) :
  evalExpr env thisV (EAwait a) = evalExpr env thisV a.
Proof. reflexivity. Qed.

Lemma evalExpr_LAnd (env : Env) (thisV : Value) (l r : Expr) vl tl :
  evalExpr env thisV l = Some (vl, tl) ->
  evalExpr env thisV (ELogical LAnd l r) =
  if truthy vl then
    match evalExpr env thisV r with
    | Some (vr, tr) => Some (vr, (tl ++ tr)%list)
    | None => None
    end
  else Some (vl, tl).
Proof. intros H. cbn [evalExpr]. rewrite H. reflexivity. Qed.

Lemma flat_map_const_singleton {A B} (x : B) (l : list A) :
  flat_map (fun _ => [x]) l = map (fun _ => x) l.
Proof. induction l as [|a l IH]; simpl; [reflexivity|]. rewrite IH. reflexivity. Qed.

Lemma flat_map_cond_singleton {A B} (p : A -> bool) (x : B) (l : list A) :
  flat_map (fun a => if p a then [x] else []) l = map (fun _ => x) (filter p l).
Proof.
  induction l as [|a l IH]; simpl; [reflexivity|].
  rewrite IH. destruct (p a); reflexivity.
Qed.

(** X4: at run time, the create mapping of [createServiceModules] keeps
    every property of [args] except [data], and its [data] object keeps
    every supplied field except the password fields, each of which is
    replaced by [this.passwordService.hash] of the supplied value; the
    evaluation calls the hash function once per password field, in field
    order, and nothing else.  Without password fields it is [args]
    itself. *)
Theorem create_args_mapping_eval (entityName entityType : string) (entity : Entity)
  (env : Env) (thisV : Value) (aps D : list (string * Value)) (h : string) :
  evalExpr env thisV ARGS_ID = Some (VObj aps, []) ->
  lookupProp aps DATA_ID = VObj D ->
  NoDup (map fst aps) ->
  NoDup (map fst D) ->
  evalExpr env thisV HASH_MEMBER_EXPRESSION = Some (VFun h, []) ->
  let pw := filter isPasswordField (entityFields entity) in
  exists e o d,
    lookupMapping (createMapping entityName entityType pw) "CREATE_ARGS_MAPPING" = Some e /\
    evalExpr env thisV e = Some (VObj o, map (fun _ => h) pw) /\
    (forall k, k <> DATA_ID -> lookupProp o k = lookupProp aps k) /\
    lookupProp o DATA_ID = VObj d /\
    (forall k, lookupProp d k =
       if existsb (fun f => String.eqb (fieldName f) k) pw
       then VCallResult h [lookupProp D k] else lookupProp D k).
Proof.
  intros Hargs Hdata Hnd1 Hnd2 Hhash pw. clearbody pw.
  destruct pw as [|f0 pw0] eqn:Epw.
  - exists ARGS_ID, aps, D. repeat split; try assumption; reflexivity.
  - rewrite <- Epw.
    set (val := fun n => VCallResult h [lookupProp D n]).
    set (d := fold_left (fun a f => setProp a (fieldName f) (val (fieldName f))) pw
                (spreadInto [] (VObj D))).
    exists (createMutationDataMapping (map createArgsOverride pw)),
      (setProp (spreadInto [] (VObj aps)) DATA_ID (VObj d)), d.
    split; [unfold createMapping; simpl; reflexivity|].
    split.
    + rewrite (evalExpr_mutationDataMapping env thisV aps D createArgsOverride
                 (fun f => val (fieldName f)) (fun _ => [h]) pw);
        [| rewrite Epw; discriminate | exact Hargs | exact Hdata |].
      * rewrite flat_map_const_singleton. reflexivity.
      * intros f _. eexists. split; [reflexivity|].
        rewrite evalExpr_EAwait.
        apply evalExpr_call1; [exact Hhash|].
        apply (evalExpr_argsDataField _ _ _ _ _ Hargs Hdata).
    + split; [|split].
      * intros k Hk. rewrite lookupProp_setProp.
        destruct (String.eqb_spec DATA_ID k) as [Heq|]; [congruence|].
        apply lookupProp_spreadInto_nil. exact Hnd1.
      * rewrite lookupProp_setProp, String.eqb_refl. reflexivity.
      * intros k. unfold d. rewrite lookupProp_fold_overrides.
        rewrite lookupProp_spreadInto_nil by exact Hnd2. reflexivity.
Qed.

(** X5: at run time, the update mapping of [createServiceModules] keeps
    every property of [args] except [data], and its [data] object keeps
    every supplied field except the password fields with a truthy supplied
    value, each of which becomes [transformStringFieldUpdateInput(value,
    (password) => this.passwordService.hash(password))]; a password field
    that is absent or falsy keeps its supplied value.  The evaluation calls
    the transform helper once per password field with a truthy value, in
    field order, and nothing else (the hash function is only handed over,
    never called).  Without password fields it is [args] itself. *)
Theorem update_args_mapping_eval (entityName entityType : string) (entity : Entity)
  (env : Env) (thisV : Value) (aps D : list (string * Value)) (t : string) :
  evalExpr env thisV ARGS_ID = Some (VObj aps, []) ->
  lookupProp aps DATA_ID = VObj D ->
  NoDup (map fst aps) ->
  NoDup (map fst D) ->
  evalExpr env thisV (EId TRANSFORM_STRING_FIELD_UPDATE_INPUT_ID) = Some (VFun t, []) ->
  let pw := filter isPasswordField (entityFields entity) in
  exists e o d,
    lookupMapping (createMapping entityName entityType pw) "UPDATE_ARGS_MAPPING" = Some e /\
    evalExpr env thisV e =
      Some (VObj o, map (fun _ => t)
                      (filter (fun f => truthy (lookupProp D (fieldName f))) pw)) /\
    (forall k, k <> DATA_ID -> lookupProp o k = lookupProp aps k) /\
    lookupProp o DATA_ID = VObj d /\
    (forall k, lookupProp d k =
       if existsb (fun f => String.eqb (fieldName f) k) pw
            && truthy (lookupProp D k)
       then VCallResult t [lookupProp D k; passwordHasher] else lookupProp D k).
Proof.
  intros Hargs Hdata Hnd1 Hnd2 Htrans pw. clearbody pw.
  destruct pw as [|f0 pw0] eqn:Epw.
  - exists ARGS_ID, aps, D. repeat split; try assumption; reflexivity.
  - rewrite <- Epw.
    set (val := fun n => if truthy (lookupProp D n)
                         then VCallResult t [lookupProp D n; passwordHasher]
                         else lookupProp D n).
    set (d := fold_left (fun a f => setProp a (fieldName f) (val (fieldName f))) pw
                (spreadInto [] (VObj D))).
    exists (createMutationDataMapping (map updateArgsOverride pw)),
      (setProp (spreadInto [] (VObj aps)) DATA_ID (VObj d)), d.
    split; [unfold createMapping; simpl; reflexivity|].
    split.
    + rewrite (evalExpr_mutationDataMapping env thisV aps D updateArgsOverride
                 (fun f => val (fieldName f))
                 (fun f => if truthy (lookupProp D (fieldName f)) then [t] else []) pw);
        [| rewrite Epw; discriminate | exact Hargs | exact Hdata |].
      * rewrite flat_map_cond_singleton. reflexivity.
      * intros f _. eexists. split; [reflexivity|].
        rewrite (evalExpr_LAnd _ _ _ _ _ _ (evalExpr_argsDataField _ _ _ _ _ Hargs Hdata)).
        unfold val. destruct (truthy (lookupProp D (fieldName f))); [|reflexivity].
        rewrite evalExpr_EAwait.
        rewrite (evalExpr_call2 _ _ _ _ _ t (lookupProp D (fieldName f)) passwordHasher);
          [reflexivity | exact Htrans | | reflexivity].
        apply (evalExpr_argsDataField _ _ _ _ _ Hargs Hdata).
    + split; [|split].
      * intros k Hk. rewrite lookupProp_setProp.
        destruct (String.eqb_spec DATA_ID k) as [Heq|]; [congruence|].
        apply lookupProp_spreadInto_nil. exact Hnd1.
      * rewrite lookupProp_setProp, String.eqb_refl. reflexivity.
      * intros k. unfold d. rewrite lookupProp_fold_overrides.
        rewrite lookupProp_spreadInto_nil by exact Hnd2. unfold val.
        destruct (existsb _ pw), (truthy (lookupProp D k)); reflexivity.
Qed.

(** ** Failures of the pipelines *)

Lemma injectParam_noConstructor (p : Param) (ms : list ClassMember) :
  hasConstructor ms = false -> injectParam p ms = None.
Proof.
  unfold hasConstructor. induction ms as [|m ms IH]; simpl; [reflexivity|].
  intros H. apply orb_false_iff in H as [Hm Hms].
  rewrite Hm, IH by exact Hms. reflexivity.
Qed.

(** X6: [createServiceModules] fails only for an entity with a password
    field, and its error is a missing class or a missing constructor of
    the service class or of the base service class. *)
Theorem createServiceModules_error_cases
  (SRC_DIRECTORY : string) (serviceTemplate serviceBaseTemplate : File)
  (entityName entityType : string) (entity : Entity) (err : GenError) :
  createServiceModules SRC_DIRECTORY serviceTemplate serviceBaseTemplate
    entityName entityType entity = Err err ->
  filter isPasswordField (entityFields entity) <> [] /\
  (err = TargetNotFound (createServiceId entityType) \/
   err = ConstructorNotFound (createServiceId entityType) \/
   err = TargetNotFound (createServiceBaseId entityType) \/
   err = ConstructorNotFound (createServiceBaseId entityType)).
Proof.
  unfold createServiceModules, createServiceModulesRun. cbv zeta.
  rewrite createServiceModule_flat, createServiceBaseModule_flat.
  destruct (filter isPasswordField (entityFields entity)) as [|f pw] eqn:Epw;
    [intros H; discriminate H|].
  cbn [length Nat.eqb]. intros H. split; [discriminate|].
  destruct (findClass _ (createServiceId entityType)) as [ms|].
  2:{ injection H as <-. auto. }
  destruct (injectParam _ ms).
  2:{ injection H as <-. auto. }
  destruct (findClass _ (createServiceBaseId entityType)) as [ms2|].
  2:{ injection H as <-. auto. }
  destruct (injectParam _ ms2).
  - discriminate H.
  - injection H as <-. auto.
Qed.

(** X7: for an entity with a password field, a concrete service template
    whose service class is missing, or has no constructor, makes
    [createServiceModules] fail with that error, whatever the base
    template: the concrete artifact is built first. *)
Theorem concrete_failure_reported_first
  (SRC_DIRECTORY : string) (serviceTemplate serviceBaseTemplate : File)
  (entityName entityType : string) (entity : Entity) :
  let pw := filter isPasswordField (entityFields entity) in
  let mapping := createMapping entityName entityType pw in
  pw <> [] ->
  (findClass (interpolate mapping serviceTemplate) (createServiceId entityType) = None ->
   createServiceModules SRC_DIRECTORY serviceTemplate serviceBaseTemplate
     entityName entityType entity = Err (TargetNotFound (createServiceId entityType))) /\
  (forall ms,
     findClass (interpolate mapping serviceTemplate) (createServiceId entityType) = Some ms ->
     hasConstructor ms = false ->
     createServiceModules SRC_DIRECTORY serviceTemplate serviceBaseTemplate
       entityName entityType entity = Err (ConstructorNotFound (createServiceId entityType))).
Proof.
  intros pw mapping Hne.
  unfold createServiceModules, createServiceModulesRun. fold pw mapping.
  rewrite createServiceModule_flat, length_nonzero by exact Hne.
  findClass_through.
  split.
  - intros E. rewrite E. reflexivity.
  - intros ms E Hc. rewrite E, injectParam_noConstructor by exact Hc. reflexivity.
Qed.

(** ** Import paths of the collaborators *)

Lemma normalizeSegments_normal (xs : list string) :
  forallb normalSegment xs = true -> normalizeSegments xs = xs.
Proof.
  intros H. unfold normalizeSegments. rewrite fold_normStep_normal by exact H.
  rewrite app_nil_r. apply rev_involutive.
Qed.

Lemma mapLast_app (f : string -> string) (l m : list string) :
  m <> [] -> mapLast f (l ++ m) = (l ++ mapLast f m)%list.
Proof.
  intros Hm. destruct m as [|x m] using rev_ind; [contradiction|].
  rewrite app_assoc, !mapLast_snoc, app_assoc. reflexivity.
Qed.

(** Both paths under the same root: the import path does not depend on
    the root. *)
Lemma relativeImportPath_root (SRC_DIRECTORY a b : string) :
  forallb normalSegment (splitSlash a) = true ->
  forallb normalSegment (splitSlash b) = true ->
  relativeImportPath (SRC_DIRECTORY ++ "/" ++ a) (SRC_DIRECTORY ++ "/" ++ b) =
  relativeImportPath a b.
Proof.
  intros Ha Hb. unfold relativeImportPath.
  rewrite !splitSlash_app_slash, !normalizeSegments_app_normal by assumption.
  rewrite (normalizeSegments_normal (splitSlash a) Ha), (normalizeSegments_normal (splitSlash b) Hb).
  rewrite removelast_app by apply splitSlash_not_nil.
  rewrite mapLast_app by apply splitSlash_not_nil.
  rewrite stripCommonPrefix_app. reflexivity.
Qed.

Lemma splitSlash_service (e : string) :
  plainSegment e = true ->
  splitSlash (e ++ "/" ++ e ++ ".service.ts") = [e; e ++ ".service.ts"] /\
  forallb normalSegment [e; e ++ ".service.ts"] = true.
Proof.
  intros Hp. apply plainSegment_split in Hp as [Hns Hnorm].
  rewrite splitSlash_app_slash, (splitSlash_noSlash e Hns).
  rewrite (splitSlash_noSlash (e ++ ".service.ts")) by (apply noSlash_app; auto).
  split; [reflexivity|]. simpl. rewrite Hnorm, normalSegment_long; [reflexivity|].
  rewrite string_length_app. simpl. lia.
Qed.

Lemma splitSlash_service_base (e : string) :
  plainSegment e = true ->
  splitSlash (e ++ "/base/" ++ e ++ ".service.base.ts") =
    [e; "base"; e ++ ".service.base.ts"] /\
  forallb normalSegment [e; "base"; e ++ ".service.base.ts"] = true.
Proof.
  intros Hp. apply plainSegment_split in Hp as [Hns Hnorm].
  change ("/base/" ++ e ++ ".service.base.ts")
    with ("/" ++ "base" ++ "/" ++ e ++ ".service.base.ts").
  rewrite !splitSlash_app_slash, (splitSlash_noSlash e Hns).
  rewrite (splitSlash_noSlash (e ++ ".service.base.ts")) by (apply noSlash_app; auto).
  split; [reflexivity|]. simpl. rewrite Hnorm, normalSegment_long; [reflexivity|].
  rewrite string_length_app. simpl. lia.
Qed.

Lemma relativeImportPath_concrete_password (SRC_DIRECTORY e : string) :
  plainSegment e = true ->
  relativeImportPath (serviceModulePath SRC_DIRECTORY e)
    (PASSWORD_SERVICE_MODULE_PATH SRC_DIRECTORY) =
  if String.eqb e "auth" then "./password.service" else "../auth/password.service".
Proof.
  intros Hp. destruct (splitSlash_service e Hp) as [Hs Hn].
  unfold serviceModulePath, PASSWORD_SERVICE_MODULE_PATH.
  change ("/auth/password.service.ts") with ("/" ++ "auth/password.service.ts").
  rewrite relativeImportPath_root; [| rewrite Hs; exact Hn | reflexivity].
  unfold relativeImportPath. rewrite Hs, normalizeSegments_normal by exact Hn.
  change (mapLast removeTsExt (normalizeSegments (splitSlash "auth/password.service.ts")))
    with ["auth"; "password.service"].
  cbn [removelast stripCommonPrefix]. destruct (String.eqb e "auth"); reflexivity.
Qed.

Lemma relativeImportPath_base_password (SRC_DIRECTORY e : string) :
  plainSegment e = true ->
  relativeImportPath (serviceBaseModulePath SRC_DIRECTORY e)
    (PASSWORD_SERVICE_MODULE_PATH SRC_DIRECTORY) =
  if String.eqb e "auth" then "../password.service" else "../../auth/password.service".
Proof.
  intros Hp. destruct (splitSlash_service_base e Hp) as [Hs Hn].
  unfold serviceBaseModulePath, PASSWORD_SERVICE_MODULE_PATH.
  change ("/auth/password.service.ts") with ("/" ++ "auth/password.service.ts").
  rewrite relativeImportPath_root; [| rewrite Hs; exact Hn | reflexivity].
  unfold relativeImportPath. rewrite Hs, normalizeSegments_normal by exact Hn.
  change (mapLast removeTsExt (normalizeSegments (splitSlash "auth/password.service.ts")))
    with ["auth"; "password.service"].
  cbn [removelast stripCommonPrefix]. destruct (String.eqb e "auth"); reflexivity.
Qed.

Lemma relativeImportPath_base_prisma (SRC_DIRECTORY e : string) :
  plainSegment e = true ->
  relativeImportPath (serviceBaseModulePath SRC_DIRECTORY e)
    (PRISMA_UTIL_MODULE_PATH SRC_DIRECTORY) =
  if String.eqb e "prisma.util" then ".." else "../../prisma.util".
Proof.
  intros Hp. destruct (splitSlash_service_base e Hp) as [Hs Hn].
  unfold serviceBaseModulePath, PRISMA_UTIL_MODULE_PATH.
  change ("/prisma.util.ts") with ("/" ++ "prisma.util.ts").
  rewrite relativeImportPath_root; [| rewrite Hs; exact Hn | reflexivity].
  unfold relativeImportPath. rewrite Hs, normalizeSegments_normal by exact Hn.
  change (mapLast removeTsExt (normalizeSegments (splitSlash "prisma.util.ts")))
    with ["prisma.util"].
  cbn [removelast stripCommonPrefix]. destruct (String.eqb e "prisma.util"); reflexivity.
Qed.

(** X8: for an entity with a password field and an entity name that is a
    single path segment, the concrete artifact imports [PasswordService]
    from [../auth/password.service], the base artifact imports it from
    [../../auth/password.service] and [transformStringFieldUpdateInput]
    from [../../prisma.util], whatever the root directory; for an entity
    named [auth] (resp. [prisma.util]) the artifacts sit next to the
    collaborator and the paths shorten accordingly. *)
Theorem collaborator_import_paths
  (SRC_DIRECTORY : string) (serviceTemplate serviceBaseTemplate : File)
  (entityName entityType : string) (entity : Entity)
  (m1 m2 : Module) (tr1 tr2 : list Op) :
  plainSegment entityName = true ->
  filter isPasswordField (entityFields entity) <> [] ->
  createServiceModulesRun SRC_DIRECTORY serviceTemplate serviceBaseTemplate
    entityName entityType entity = Ok [(m1, tr1); (m2, tr2)] ->
  In (OpAddImports [importNames ["PasswordService"]
       (if String.eqb entityName "auth" then "./password.service"
        else "../auth/password.service")]) tr1 /\
  In (OpAddImports [importNames ["PasswordService"]
       (if String.eqb entityName "auth" then "../password.service"
        else "../../auth/password.service")]) tr2 /\
  In (OpAddImports [importNames ["transformStringFieldUpdateInput"]
       (if String.eqb entityName "prisma.util" then ".."
        else "../../prisma.util")]) tr2.
Proof.
  intros Hp Hne H.
  rewrite <- (relativeImportPath_concrete_password SRC_DIRECTORY entityName Hp),
          <- (relativeImportPath_base_password SRC_DIRECTORY entityName Hp),
          <- (relativeImportPath_base_prisma SRC_DIRECTORY entityName Hp).
  apply createServiceModulesRun_inv in H as (m1' & tr1' & m2' & tr2' & Hr & H1 & H2).
  inversion Hr; subst m1' tr1' m2' tr2'. clear Hr.
  rewrite createServiceModule_flat, length_nonzero in H1 by assumption.
  rewrite createServiceBaseModule_flat, length_nonzero in H2 by assumption.
  destruct (findClass _ (createServiceId entityType)) in H1; [|discriminate].
  destruct (injectParam _ _) in H1; [|discriminate].
  destruct (findClass _ (createServiceBaseId entityType)) in H2; [|discriminate].
  destruct (injectParam _ _) in H2; [|discriminate].
  injection H1 as _ <-. injection H2 as _ <-.
  simpl. intuition.
Qed.

(** ** Instances of the hypotheses of the further properties *)

Lemma create_args_mapping_eval_witness :
  exists e o d,
    lookupMapping (createMapping "customer" "Customer"
      (filter isPasswordField (entityFields customerEntity))) "CREATE_ARGS_MAPPING" = Some e /\
    evalExpr sampleArgsEnv sampleThis e = Some (VObj o, ["hash"]) /\
    lookupProp o "select" = VStr "all" /\
    lookupProp o "data" = VObj d /\
    lookupProp d "password" = VCallResult "hash" [VStr "secret"] /\
    lookupProp d "name" = VStr "Ann".
Proof.
  destruct (create_args_mapping_eval "customer" "Customer" customerEntity sampleArgsEnv
              sampleThis
              [("data", VObj [("name", VStr "Ann"); ("password", VStr "secret")]);
               ("select", VStr "all")]
              [("name", VStr "Ann"); ("password", VStr "secret")] "hash")
    as (e & o & d & He & Hev & Ho & Hd & Hk);
    [reflexivity | reflexivity
    | repeat constructor; simpl; intuition discriminate
    | repeat constructor; simpl; intuition discriminate
    | reflexivity |].
  exists e, o, d. split; [exact He|]. split; [exact Hev|].
  split; [rewrite Ho; [reflexivity|discriminate]|].
  split; [exact Hd|]. split; rewrite Hk; reflexivity.
Defined.

Lemma update_args_mapping_eval_witness :
  exists e o d,
    lookupMapping (createMapping "customer" "Customer"
      (filter isPasswordField (entityFields customerEntity))) "UPDATE_ARGS_MAPPING" = Some e /\
    evalExpr sampleArgsEnv sampleThis e =
      Some (VObj o, ["transformStringFieldUpdateInput"]) /\
    lookupProp o "data" = VObj d /\
    lookupProp d "password" =
      VCallResult "transformStringFieldUpdateInput" [VStr "secret"; passwordHasher].
Proof.
  destruct (update_args_mapping_eval "customer" "Customer" customerEntity sampleArgsEnv
              sampleThis
              [("data", VObj [("name", VStr "Ann"); ("password", VStr "secret")]);
               ("select", VStr "all")]
              [("name", VStr "Ann"); ("password", VStr "secret")]
              "transformStringFieldUpdateInput")
    as (e & o & d & He & Hev & Ho & Hd & Hk);
    [reflexivity | reflexivity
    | repeat constructor; simpl; intuition discriminate
    | repeat constructor; simpl; intuition discriminate
    | reflexivity |].
  exists e, o, d. split; [exact He|]. split; [exact Hev|].
  split; [exact Hd|]. rewrite Hk. reflexivity.
Defined.

Lemma createServiceModules_error_cases_witness :
  createServiceModules "server/src" classlessTemplate classlessTemplate
    "customer" "Customer" customerEntity = Err (TargetNotFound "CustomerService") /\
  filter isPasswordField (entityFields customerEntity) <> [].
Proof.
  assert (H : createServiceModules "server/src" classlessTemplate classlessTemplate
                "customer" "Customer" customerEntity = Err (TargetNotFound "CustomerService"))
    by (vm_compute; reflexivity).
  split; [exact H|].
  exact (proj1 (createServiceModules_error_cases "server/src" classlessTemplate
                  classlessTemplate "customer" "Customer" customerEntity _ H)).
Defined.

Lemma concrete_failure_reported_first_witness :
  createServiceModules "server/src" classlessTemplate sampleServiceBaseTemplate
    "customer" "Customer" customerEntity = Err (TargetNotFound "CustomerService").
Proof.
  destruct (concrete_failure_reported_first "server/src" classlessTemplate
              sampleServiceBaseTemplate "customer" "Customer" customerEntity
              ltac:(discriminate)) as [H _].
  apply H. reflexivity.
Defined.

Lemma collaborator_import_paths_witness :
  exists m1 tr1 m2 tr2,
    createServiceModulesRun "server/src" sampleServiceTemplate sampleServiceBaseTemplate
      "customer" "Customer" customerEntity = Ok [(m1, tr1); (m2, tr2)] /\
    In (OpAddImports [importNames ["transformStringFieldUpdateInput"] "../../prisma.util"])
      tr2.
Proof.
  destruct customer_run_ok as (m1 & tr1 & m2 & tr2 & Hrun).
  exists m1, tr1, m2, tr2. split; [exact Hrun|].
  destruct (collaborator_import_paths "server/src" sampleServiceTemplate
              sampleServiceBaseTemplate "customer" "Customer" customerEntity
              m1 m2 tr1 tr2 eq_refl ltac:(discriminate) Hrun) as (_ & _ & H).
  exact H.
Defined.
